(** * cpg.c: a Corosync background worker for PostgreSQL

  A shallow embedding of [journee6/cpg.c] and the properties of its
  membership callback, status projection and event loop.

  The worker is single-threaded C code that talks to two collaborators
  whose code is not part of the repository: the PostgreSQL host (logging,
  process title, GUC, latches) and the corosync CPG client.  Calls into
  them are recorded as a trace of [event]s; what they return is an input
  of the model.  The worker's globals are threaded through a small state
  monad whose computations can also end the process ([elog(FATAL)],
  [exit]). *)

From Stdlib Require Import ZArith List String Ascii Bool Lia.
Import ListNotations.

Local Open Scope string_scope.
Local Open Scope Z_scope.

(** ** C integers and formatted output *)

Module CFormat.

(** [INT_MAX] of <limits.h>; PostgreSQL requires a 32-bit [int]. *)
Definition INT_MAX : Z := 2147483647.

(** Conversion to [uint32_t]: reduction modulo 2^32. *)
Definition to_uint32 (z : Z) : Z := z mod 2 ^ 32.

(** Conversion to a 32-bit signed integer ([int], [pid_t]): two's
    complement wrap-around. *)
Definition to_int32 (z : Z) : Z := (z + 2 ^ 31) mod 2 ^ 32 - 2 ^ 31.

(** [a * b] in [int] arithmetic.  Signed overflow is undefined in C; the
    model wraps, and the theorems state when no wrap happens. *)
Definition int_mul (a b : Z) : Z := to_int32 (a * b).

Definition digit_char (d : Z) : ascii := ascii_of_nat (48 + Z.to_nat d).

(** Decimal digits of [n], most significant first, pushed in front of
    [acc]; one digit per unit of [fuel]. *)
Fixpoint utoa (fuel : nat) (n : Z) (acc : string) : string :=
  match fuel with
  | O => acc
  | S fuel' =>
      let acc' := String (digit_char (n mod 10)) acc in
      if n / 10 =? 0 then acc' else utoa fuel' (n / 10) acc'
  end.

(** [%u] and [%lu]: twenty digits cover every 64-bit value. *)
Definition fmt_u (n : Z) : string := utoa 20 n "".

(** [%d] applied to a value already converted to [int]. *)
Definition fmt_d (n : Z) : string :=
  if n <? 0 then "-" ++ fmt_u (- n) else fmt_u n.

(** [snprintf(buf, size, ...)] stores at most [size - 1] bytes of the
    formatted text [s], then the terminating NUL. *)
Definition snprintf (size : nat) (s : string) : string :=
  substring 0 (size - 1) s.

(** [strlen]. *)
Definition strlen (s : string) : Z := Z.of_nat (String.length s).

(** [strncpy(dst, src, n)]: the [n] bytes stored in [dst], the copy of
    [src] cut at [n] bytes and padded with NUL bytes up to [n]. *)
Definition strncpy (src : string) (n : nat) : list ascii :=
  (firstn n (list_ascii_of_string src)
     ++ repeat zero (n - String.length src))%list.

End CFormat.
Import CFormat.

(** ** StringInfo (PostgreSQL's growable string buffer) *)

Module StringInfo.

(** Modelled from the spec: [StringInfoData] of PostgreSQL's
    lib/stringinfo.h, the "growable byte buffer" of the membership list.
    [data] holds the [len] bytes written so far; in memory they are
    followed by one NUL byte at index [len].  The buffer comes from
    [palloc], which does not clear it: bytes at an index above [len] were
    never written. *)
Record StringInfoData := { data : string }.

Definition len (s : StringInfoData) : nat := String.length (data s).

Definition initStringInfo : StringInfoData := {| data := "" |}.

Definition appendStringInfo (s : StringInfoData) (text : string)
  : StringInfoData :=
  {| data := data s ++ text |}.

(** The C string read at [s.data + off]: the written bytes from [off] to
    the terminator, or [None] when [off] lies beyond the terminator, where
    the bytes read are whatever [palloc] left there. *)
Definition cstring_at (s : StringInfoData) (off : nat) : option string :=
  if (off <=? len s)%nat
  then Some (substring off (len s - off) (data s))
  else None.

End StringInfo.
Import StringInfo.

(** ** The collaborators: corosync's CPG client and the PostgreSQL host *)

(** Constants of corosync's headers (corotypes.h, cpg.h), which are not part
    of the repository: the three [cs_error_t] codes the worker tests, as the
    integers [%d] prints, and the capacity of [cpg_name.value]. *)
Class corosync_h := {
  CS_OK : Z;
  CS_ERR_TRY_AGAIN : Z;
  CS_ERR_INVALID_PARAM : Z;
  CPG_MAX_NAME_LENGTH : nat
}.

(** [cs_dispatch_flags_t]. *)
Inductive cs_dispatch_flags_t :=
| CS_DISPATCH_ONE
| CS_DISPATCH_ALL
| CS_DISPATCH_BLOCKING
| CS_DISPATCH_ONE_NONBLOCKING.

(** [struct cpg_address]: three [uint32_t] fields. *)
Record cpg_address := {
  nodeid : Z;
  pid : Z;
  reason : Z
}.

(** [struct cpg_name]: a length and [CPG_MAX_NAME_LENGTH] bytes. *)
Record cpg_name := {
  length : Z;
  value : list ascii
}.

(** The arguments of one configuration-change callback.  The three entry
    counts of the C signature are the lengths of the lists. *)
Record confchg := {
  member_list : list cpg_address;
  left_list : list cpg_address;
  joined_list : list cpg_address
}.

(** What a call of [cpg_dispatch] finds to deliver. *)
Inductive cpg_event :=
| EvConfchg (c : confchg)
| EvDeliver
| EvTotemConfchg.

Inductive elevel := DEBUG1 | LOG | FATAL.

Inductive signal := SIGTERM | SIGHUP.

Inductive sighandler := Handler_cpg_sigterm | SignalHandlerForConfigReload.

Inductive wake_event :=
| WL_LATCH_SET
| WL_TIMEOUT
| WL_EXIT_ON_PM_DEATH
| WL_SOCKET_READABLE.

Inductive GucContext := PGC_POSTMASTER | PGC_SIGHUP | PGC_USERSET.

Inductive guc_unit := GUC_UNIT_MS | GUC_UNIT_S | GUC_UNIT_MIN.

(** The arguments of [DefineCustomIntVariable] (the three hooks and the long
    description are NULL in the source and left out). *)
Record config_int := {
  guc_name : string;
  guc_short_desc : string;
  guc_boot_value : Z;
  guc_min_value : Z;
  guc_max_value : Z;
  guc_context : GucContext;
  guc_flags : guc_unit
}.

(** Calls into the collaborators, in program order.  [Elog_indeterminate]
    is a log line whose last [%s] argument was read beyond the initialised
    bytes of its buffer: only the text before it is determined. *)
Inductive event :=
| Elog (lvl : elevel) (msg : string)
| Elog_indeterminate (lvl : elevel) (msg_prefix : string)
| Call_set_ps_display (title : string)
| Call_pqsignal (sig : signal) (h : sighandler)
| Call_BackgroundWorkerUnblockSignals
| Call_DefineCustomIntVariable (c : config_int)
| Call_MarkGUCPrefixReserved (prefix : string)
| Call_RecoveryInProgress
| Call_cpg_model_initialize
| Call_cpg_join (group : cpg_name)
| Call_cpg_local_get
| Call_cpg_fd_get
| Call_cpg_dispatch (flags : cs_dispatch_flags_t)
| Call_CHECK_FOR_INTERRUPTS
| Call_HandleMainLoopInterrupts
| Call_WaitLatchOrSocket (wake : list wake_event) (sock : Z) (timeout : Z)
| Call_ResetLatch
| Call_pfree.

(** ** The worker's state and its monad *)

(** The file-scope variables of cpg.c. *)
Record globals := {
  interval : Z;
  in_recovery : bool;
  members : Z;
  MyNodeID : Z
}.

(** How the process ended. *)
Inductive termination :=
| Exit (status : Z)      (* exit(status) *)
| FatalExit              (* elog(FATAL): the host logs, then ends the process *)
| HostExit.              (* ended inside the host: interrupts, postmaster death *)

Inductive result (A : Type) :=
| Ret (a : A)
| Stop (t : termination).
Arguments Ret {A} a.
Arguments Stop {A} t.

(** A computation runs from the current globals and yields the calls it
    made, the globals it left and either a value or the end of the
    process. *)
Definition M (A : Type) : Type := globals -> list event * globals * result A.

Definition ret {A} (a : A) : M A := fun g => ([], g, Ret a).

Definition bind {A B} (m : M A) (k : A -> M B) : M B :=
  fun g =>
    match m g with
    | (t1, g1, Ret a) =>
        match k a g1 with
        | (t2, g2, r) => ((t1 ++ t2)%list, g2, r)
        end
    | (t1, g1, Stop t) => (t1, g1, Stop t)
    end.

Notation "x <- m ;; k" := (bind m (fun x => k))
  (at level 61, m at next level, right associativity).
Notation "m ;; k" := (bind m (fun _ => k))
  (at level 61, right associativity).

Definition get : M globals := fun g => ([], g, Ret g).
Definition put (g : globals) : M unit := fun _ => ([], g, Ret tt).
Definition emit (e : event) : M unit := fun g => ([e], g, Ret tt).
Definition stop {A} (t : termination) : M A := fun g => ([], g, Stop t).

Definition trace_of {A} (x : list event * globals * result A) : list event :=
  fst (fst x).
Definition globals_of {A} (x : list event * globals * result A) : globals :=
  snd (fst x).
Definition result_of {A} (x : list event * globals * result A) : result A :=
  snd x.

Definition set_interval (v : Z) : M unit :=
  g <- get ;;
  put {| interval := v; in_recovery := in_recovery g;
         members := members g; MyNodeID := MyNodeID g |}.

Definition set_in_recovery (b : bool) : M unit :=
  g <- get ;;
  put {| interval := interval g; in_recovery := b;
         members := members g; MyNodeID := MyNodeID g |}.

Definition set_members (v : Z) : M unit :=
  g <- get ;;
  put {| interval := interval g; in_recovery := in_recovery g;
         members := v; MyNodeID := MyNodeID g |}.

Definition set_MyNodeID (v : Z) : M unit :=
  g <- get ;;
  put {| interval := interval g; in_recovery := in_recovery g;
         members := members g; MyNodeID := v |}.

(** ** Host facilities *)

(** [elog(level, msg)]: logs; at FATAL the process ends and [elog] does not
    return. *)
Definition elog (lvl : elevel) (msg : string) : M unit :=
  emit (Elog lvl msg) ;;
  match lvl with
  | FATAL => stop FatalExit
  | _ => ret tt
  end.

(** [elog(level, fmt, ..., p)] where [fmt] ends in [%s] and [p] is a
    [char *] into a StringInfo buffer. *)
Definition elog_s (lvl : elevel) (msg_prefix : string) (p : option string)
  : M unit :=
  match p with
  | Some s => elog lvl (msg_prefix ++ s)
  | None =>
      emit (Elog_indeterminate lvl msg_prefix) ;;
      match lvl with
      | FATAL => stop FatalExit
      | _ => ret tt
      end
  end.

(** [exit(status)]. *)
Definition exit {A} (status : Z) : M A := stop (Exit status).

(** [RecoveryInProgress()], answering [b]. *)
Definition RecoveryInProgress (b : bool) : M bool :=
  emit Call_RecoveryInProgress ;; ret b.

(** [CHECK_FOR_INTERRUPTS()]: services pending interrupts, which may end the
    process ([dies]). *)
Definition CHECK_FOR_INTERRUPTS (dies : bool) : M unit :=
  emit Call_CHECK_FOR_INTERRUPTS ;;
  if dies then stop HostExit else ret tt.

(** [HandleMainLoopInterrupts()]: when a reload is pending the host re-reads
    the configuration, which assigns the new setting of [cpg.interval] (given
    as [reload], [None] when no reload is pending or nothing changed). *)
Definition HandleMainLoopInterrupts (reload : option Z) : M unit :=
  emit Call_HandleMainLoopInterrupts ;;
  match reload with
  | Some v => set_interval v
  | None => ret tt
  end.

(** [set_ps_display(title)]. *)
Definition set_ps_display (title : string) : M unit :=
  emit (Call_set_ps_display title).

(** [DefineCustomIntVariable(...)]: registers the option and assigns the
    variable, from the configuration when it sets the option ([configured])
    and from the boot value otherwise. *)
Definition DefineCustomIntVariable (c : config_int) (configured : option Z)
  : M unit :=
  emit (Call_DefineCustomIntVariable c) ;;
  match configured with
  | Some v => set_interval v
  | None => set_interval (guc_boot_value c)
  end.

(** What ends a call of [WaitLatchOrSocket]. *)
Inductive wait_outcome :=
| Woken              (* latch set, socket readable or timeout *)
| PostmasterDied     (* WL_EXIT_ON_PM_DEATH: the host ends the process *)
| Signalled (sig : signal).

(** [WaitLatchOrSocket(MyLatch, wake, sock, timeout, ...)]; a signal that
    arrives during the wait runs its installed handler [handlers sig].  The
    handlers are installed and the signals unblocked at the top of
    [cpg_main], so a signal can also arrive anywhere else: those runs are
    the ones [ends] adds, further down. *)
Definition WaitLatchOrSocket (handlers : signal -> M unit)
    (wake : list wake_event) (sock timeout : Z) (o : wait_outcome) : M unit :=
  emit (Call_WaitLatchOrSocket wake sock timeout) ;;
  match o with
  | Woken => ret tt
  | PostmasterDied => stop HostExit
  | Signalled sig => handlers sig
  end.

(** ** cpg.c *)

Definition CPG_GROUP_NAME : string := "pgsql_group".

(** [update_ps_display]: the text given to [snprintf]. *)
Definition ps_display_text (in_rec : bool) (n : Z) : string :=
  if in_rec
  then "[" ++ fmt_u n ++ "] Hello!"
  else "[" ++ fmt_u n ++ "] I'm the primary!".

Definition update_ps_display : M unit :=
  g <- get ;;
  let ps_display := snprintf 128 (ps_display_text (in_recovery g) (members g)) in
  set_ps_display ps_display.

(** Signal handler for SIGTERM. *)
Definition cpg_sigterm : M unit :=
  elog LOG "[cpg] …and leaving" ;;
  exit 0.

(** The handlers installed by [pqsignal] in [cpg_main].  The reload handler
    of the host only raises a flag; what the reload does is an input of
    [HandleMainLoopInterrupts]. *)
Definition installed_handler (sig : signal) : M unit :=
  match sig with
  | SIGTERM => cpg_sigterm
  | SIGHUP => ret tt
  end.

Inductive cpg_model_v1_flags := CPG_MODEL_V1_DELIVER_INITIAL_TOTEM_CONF.

(** [cpg_model_v1_data_t]: the three callbacks (NULL is [None]) and the
    flags. *)
Record cpg_model_v1_data_t := {
  cpg_deliver_fn : option (M unit);
  cpg_confchg_fn : option (confchg -> M unit);
  cpg_totem_confchg_fn : option (M unit);
  flags : cpg_model_v1_flags
}.

(** Modelled from the spec: [cpg_dispatch] of the corosync client, called
    with a flag; it delivers at most one pending event by running the
    callback registered for it, synchronously, and then returns [rc]. *)
Definition cpg_dispatch (md : cpg_model_v1_data_t)
    (flags : cs_dispatch_flags_t) (pending : option cpg_event) (rc : Z)
  : M Z :=
  emit (Call_cpg_dispatch flags) ;;
  match pending with
  | Some (EvConfchg c) =>
      match cpg_confchg_fn md with Some f => f c | None => ret tt end
  | Some EvDeliver =>
      match cpg_deliver_fn md with Some f => f | None => ret tt end
  | Some EvTotemConfchg =>
      match cpg_totem_confchg_fn md with Some f => f | None => ret tt end
  | None => ret tt
  end ;;
  ret rc.

Section Worker.

Context {cs : corosync_h}.

(** The worker's process id, [MyProcPid] of miscadmin.h (a [pid_t]). *)
Variable MyProcPid : Z.

(** One entry of the member list, as [", %d/%d"] prints its two [uint32_t]
    fields. *)
Definition member_text (a : cpg_address) : string :=
  ", " ++ fmt_d (to_int32 (nodeid a)) ++ "/" ++ fmt_d (to_int32 (pid a)).

(** The [for] loop of [cs_config_cb] over the [member_list_entries] entries
    of [member_list], appending to a fresh buffer. *)
Definition sum_up_members (l : list cpg_address) : StringInfoData :=
  fold_left (fun msg a => appendStringInfo msg (member_text a))
            l initStringInfo.

(** The CPG configuration callback, called when members join or leave. *)
Definition cs_config_cb (c : confchg) : M unit :=
  let member_list_entries := Z.of_nat (List.length (member_list c)) in
  let left_list_entries := Z.of_nat (List.length (left_list c)) in
  let joined_list_entries := Z.of_nat (List.length (joined_list c)) in
  set_members (to_uint32 member_list_entries) ;;
  update_ps_display ;;
  let msg := sum_up_members (member_list c) in
  elog_s LOG ("[cpg] " ++ fmt_u joined_list_entries ++ " join, "
                ++ fmt_u left_list_entries
                ++ " left, procs in group now: ")
         (cstring_at msg 2) ;;
  emit Call_pfree ;;
  g <- get ;;
  if negb (left_list_entries =? 0)
     && match nth_error (left_list c) 0 with
        | Some a =>
            (to_int32 (pid a) =? MyProcPid) && (nodeid a =? MyNodeID g)
        | None => false
        end
  then elog FATAL "[cpg] I left the closed process group!"
  else ret tt.

(** [model_data] as [cpg_main] fills it. *)
Definition model_data : cpg_model_v1_data_t :=
  {| flags := CPG_MODEL_V1_DELIVER_INITIAL_TOTEM_CONF;
     cpg_deliver_fn := None;
     cpg_confchg_fn := Some cs_config_cb;
     cpg_totem_confchg_fn := None |}.

(** The option [cpg_main] declares. *)
Definition guc_interval : config_int :=
  {| guc_name := "cpg.interval";
     guc_short_desc :=
       "Defines the maximal interval in seconds between wakeups";
     guc_boot_value := 10;
     guc_min_value := 1;
     guc_max_value := INT_MAX / 1000;
     guc_context := PGC_SIGHUP;
     guc_flags := GUC_UNIT_S |}.

(** What the collaborators answer while [cpg_main] sets up. *)
Record startup_input := {
  si_interval : option Z;   (* cpg.interval in the configuration, if set *)
  si_recovery : bool;       (* RecoveryInProgress() *)
  si_init_rc : Z;           (* cpg_model_initialize *)
  si_join_rc : Z;           (* cpg_join *)
  si_local_rc : Z;          (* cpg_local_get *)
  si_nodeid : Z;            (* the node id it stores *)
  si_fd_rc : Z;             (* cpg_fd_get *)
  si_fd : Z                 (* the descriptor it stores *)
}.

(** [cpg_main] up to the event loop; returns [cpg_fd].  The namespace is
    locked with [MarkGUCPrefixReserved], the call of PostgreSQL 15 and
    later. *)
Definition cpg_main_setup (si : startup_input) : M Z :=
  emit (Call_pqsignal SIGTERM Handler_cpg_sigterm) ;;
  emit (Call_pqsignal SIGHUP SignalHandlerForConfigReload) ;;
  emit Call_BackgroundWorkerUnblockSignals ;;
  DefineCustomIntVariable guc_interval (si_interval si) ;;
  emit (Call_MarkGUCPrefixReserved "cpg") ;;
  elog LOG "[cpg] Starting…" ;;
  r <- RecoveryInProgress (si_recovery si) ;;
  set_in_recovery r ;;
  update_ps_display ;;
  emit Call_cpg_model_initialize ;;
  let rc := si_init_rc si in
  (if negb (rc =? CS_OK)
   then elog FATAL ("[cpg] could not init the cpg handle: " ++ fmt_d rc)
   else ret tt) ;;
  let cpg_group :=
    {| value := strncpy CPG_GROUP_NAME CPG_MAX_NAME_LENGTH;
       length := strlen CPG_GROUP_NAME |} in
  emit (Call_cpg_join cpg_group) ;;
  let rc := si_join_rc si in
  (if rc =? CS_OK
   then elog LOG ("[cpg] joined group '" ++ CPG_GROUP_NAME)
   else if rc =? CS_ERR_INVALID_PARAM
   then elog FATAL "[cpg] the handle is already joined to a group"
   else elog FATAL ("[cpg] could not join the close process group: "
                      ++ fmt_d rc)) ;;
  emit Call_cpg_local_get ;;
  set_MyNodeID (si_nodeid si) ;;
  let rc := si_local_rc si in
  (if negb (rc =? CS_OK)
   then elog FATAL ("[cpg] failed to get local nodeid: " ++ fmt_d rc)
   else ret tt) ;;
  emit Call_cpg_fd_get ;;
  let cpg_fd := si_fd si in
  let rc := si_fd_rc si in
  (if negb (rc =? CS_OK)
   then elog FATAL ("[cpg] failed to get the CPG file descriptor: "
                      ++ fmt_d rc)
   else ret tt) ;;
  ret cpg_fd.

(** What the collaborators answer during one iteration of the event loop. *)
Record iter_input := {
  ii_interrupt : bool;            (* CHECK_FOR_INTERRUPTS ends the process *)
  ii_pending : option cpg_event;  (* what cpg_dispatch delivers *)
  ii_dispatch_rc : Z;             (* what cpg_dispatch returns *)
  ii_recovery : bool;             (* RecoveryInProgress() in the test *)
  ii_recovery' : bool;            (* RecoveryInProgress() in the assignment *)
  ii_reload : option Z;           (* HandleMainLoopInterrupts *)
  ii_wait : wait_outcome          (* WaitLatchOrSocket *)
}.

(** How the body of a C loop hands control back: [Next] at the end of the
    body (or [continue]), [Break] at a [break]. *)
Inductive control := Next | Break.

(** Lines 254-263 of the loop: one non-blocking dispatch and the test of
    its code. *)
Definition dispatch_step (i : iter_input) : M unit :=
  rc <- cpg_dispatch model_data CS_DISPATCH_ONE_NONBLOCKING
          (ii_pending i) (ii_dispatch_rc i) ;;
  if rc =? CS_OK
  then elog DEBUG1 "[cpg] dispatched one event"
  else if negb (rc =? CS_ERR_TRY_AGAIN)
  then elog FATAL ("[cpg] dispatching callback failed: " ++ fmt_d rc)
  else ret tt.

(** Lines 265-272: the role is sampled and compared with the stored one. *)
Definition role_step (i : iter_input) : M unit :=
  r <- RecoveryInProgress (ii_recovery i) ;;
  g <- get ;;
  if negb (Bool.eqb r (in_recovery g))
  then
    elog LOG "[cpg] I've been promoted!" ;;
    r' <- RecoveryInProgress (ii_recovery' i) ;;
    set_in_recovery r' ;;
    update_ps_display
  else elog LOG "[cpg] Hi!".

(** Lines 274-285: reload, then wait for an event or the timeout. *)
Definition wait_step (cpg_fd : Z) (i : iter_input) : M unit :=
  HandleMainLoopInterrupts (ii_reload i) ;;
  g <- get ;;
  WaitLatchOrSocket installed_handler
    [WL_LATCH_SET; WL_TIMEOUT; WL_EXIT_ON_PM_DEATH; WL_SOCKET_READABLE]
    cpg_fd (int_mul (interval g) 1000) (ii_wait i) ;;
  emit Call_ResetLatch.

(** The body of the event loop.  It has no [break]. *)
Definition loop_body (cpg_fd : Z) (i : iter_input) : M control :=
  CHECK_FOR_INTERRUPTS (ii_interrupt i) ;;
  dispatch_step i ;;
  role_step i ;;
  wait_step cpg_fd i ;;
  ret Next.

(** [for (;;) body]: runs [body] on the answers of successive iterations
    until it breaks or the process ends.  The loop itself never stops; a
    run over finitely many answers that is still looping yields [Next]. *)
Fixpoint for_ever (body : iter_input -> M control) (inputs : list iter_input)
  : M control :=
  match inputs with
  | [] => ret Next
  | i :: rest =>
      c <- body i ;;
      match c with
      | Break => ret Break
      | Next => for_ever body rest
      end
  end.

(** The statements after the event loop. *)
Definition cpg_main_after_loop : M unit :=
  elog LOG "[cpg] oops, the event loop broke" ;;
  exit 1.

(** The bgworker main function, run on the answers [si] of the set-up and
    [inputs] of the first iterations. *)
Definition cpg_main (si : startup_input) (inputs : list iter_input) : M unit :=
  cpg_fd <- cpg_main_setup si ;;
  c <- for_ever (loop_body cpg_fd) inputs ;;
  match c with
  | Break => cpg_main_after_loop
  | Next => ret tt
  end.

End Worker.

(** The codes of corosync's corotypes.h and the name capacity of cpg.h. *)
#[export] Instance corosync_3 : corosync_h :=
  {| CS_OK := 1;
     CS_ERR_TRY_AGAIN := 6;
     CS_ERR_INVALID_PARAM := 7;
     CPG_MAX_NAME_LENGTH := 128 |}.

(** The initial values of the file-scope variables (C zero-initialises
    them). *)
Definition globals0 : globals :=
  {| interval := 0; in_recovery := false; members := 0; MyNodeID := 0 |}.

(** ** Vocabulary of the statements *)

(** A member address as the pair the specification compares. *)
Definition address (a : cpg_address) : Z * Z := (nodeid a, pid a).

(** [t] in front of the trace of a run. *)
Definition prepend_trace {A} (t : list event)
    (x : list event * globals * result A) : list event * globals * result A :=
  ((t ++ trace_of x)%list, globals_of x, result_of x).

(** The dispatch attempts recorded in a trace. *)
Definition is_dispatch (e : event) : bool :=
  match e with
  | Call_cpg_dispatch _ => true
  | _ => false
  end.

Definition dispatch_attempts (t : list event) : list event :=
  filter is_dispatch t.

Definition not_dispatch (e : event) : Prop := is_dispatch e = false.

(** The options declared in a trace. *)
Fixpoint declared_options (t : list event) : list config_int :=
  match t with
  | [] => []
  | Call_DefineCustomIntVariable c :: t' => c :: declared_options t'
  | _ :: t' => declared_options t'
  end.

(** The groups joined in a trace. *)
Fixpoint joined_groups (t : list event) : list cpg_name :=
  match t with
  | [] => []
  | Call_cpg_join n :: t' => n :: joined_groups t'
  | _ :: t' => joined_groups t'
  end.

(** The FATAL messages of a trace. *)
Fixpoint fatal_messages (t : list event) : list string :=
  match t with
  | [] => []
  | Elog FATAL msg :: t' => msg :: fatal_messages t'
  | _ :: t' => fatal_messages t'
  end.

(** [msg] contains the decimal text of [code]. *)
Definition mentions (code : Z) (msg : string) : bool :=
  match index 0 (fmt_d code) msg with
  | Some _ => true
  | None => false
  end.

(** The number a string of decimal digits denotes. *)
Definition digit_value (ch : ascii) : Z := Z.of_nat (nat_of_ascii ch) - 48.

Fixpoint decimal_value (s : string) : Z :=
  match s with
  | EmptyString => 0
  | String ch s' =>
      digit_value ch * 10 ^ Z.of_nat (String.length s') + decimal_value s'
  end.

(** One entry of the member list as the log shows it, without separator. *)
Definition pair_text (a : cpg_address) : string :=
  fmt_d (to_int32 (nodeid a)) ++ "/" ++ fmt_d (to_int32 (pid a)).

(** The LOG line of the membership callback for the configuration change
    [c], as the trace records it. *)
Definition members_log (c : confchg) : event :=
  let line :=
    "[cpg] " ++ fmt_u (Z.of_nat (List.length (joined_list c))) ++ " join, "
      ++ fmt_u (Z.of_nat (List.length (left_list c)))
      ++ " left, procs in group now: " in
  match cstring_at (sum_up_members (member_list c)) 2 with
  | Some s => Elog LOG (line ++ s)
  | None => Elog_indeterminate LOG line
  end.

(** Every call made by [m], from any globals, satisfies [Pe]. *)
Definition emits {A} (Pe : event -> Prop) (m : M A) : Prop :=
  forall g, Forall Pe (trace_of (m g)).

(** [m] leaves the observation [f] of the globals unchanged. *)
Definition keeps {A B} (f : globals -> B) (m : M A) : Prop :=
  forall g, f (globals_of (m g)) = f g.

(** When [m] ends the process, it ends it in a way that satisfies [S]. *)
Definition stops {A} (S : termination -> Prop) (m : M A) : Prop :=
  forall g t, result_of (m g) = Stop t -> S t.

(** When [m] returns, its value satisfies [P]. *)
Definition returns {A} (P : A -> Prop) (m : M A) : Prop :=
  forall g a, result_of (m g) = Ret a -> P a.

Definition not_exit_1 (t : termination) : Prop := t <> Exit 1.

(** The bytes the loop of [cs_config_cb] appends for the view [l]. *)
Definition members_text (l : list cpg_address) : string :=
  fold_right (fun a s => member_text a ++ s) "" l.

Definition not_declaration (e : event) : Prop := declared_options [e] = [].

Definition is_wait (e : event) : bool :=
  match e with
  | Call_WaitLatchOrSocket _ _ _ => true
  | _ => false
  end.

Definition not_wait (e : event) : Prop := is_wait e = false.

(** The interval in force at the wait of an iteration: the reloaded setting
    when the reload brought one. *)
Definition interval_at_wait (i : iter_input) (g : globals) : Z :=
  match ii_reload i with
  | Some v => v
  | None => interval g
  end.

(** [cpg_main] without the statements after its loop. *)
Definition cpg_main_without_fall_through {cs : corosync_h} (MyProcPid : Z)
    (si : startup_input) (inputs : list iter_input) : M unit :=
  cpg_fd <- cpg_main_setup si ;;
  for_ever (loop_body MyProcPid cpg_fd) inputs ;;
  ret tt.

(** The run [out] ended at a FATAL log, its only one, with text [msg]. *)
Definition ends_fatally {A} (out : list event * globals * result A)
    (msg : string) : Prop :=
  result_of out = Stop FatalExit
  /\ fatal_messages (trace_of out) = [msg]
  /\ last (trace_of out) Call_pfree = Elog FATAL msg.

(** What an iteration of the event loop does after its dispatch. *)
Definition after_dispatch (cpg_fd : Z) (i : iter_input) : M control :=
  role_step i ;;
  wait_step cpg_fd i ;;
  ret Next.

(** Sample inputs: node 7 is the worker (process 123), node 8 a peer. *)
Definition node7 : cpg_address := {| nodeid := 7; pid := 123; reason := 0 |}.
Definition node8 : cpg_address := {| nodeid := 8; pid := 456; reason := 0 |}.

Definition standby7 : globals :=
  {| interval := 10; in_recovery := true; members := 2; MyNodeID := 7 |}.

Definition primary7 : globals :=
  {| interval := 10; in_recovery := false; members := 2; MyNodeID := 7 |}.

(** Node 7 leaves, first in the left list. *)
Definition self_leaves : confchg :=
  {| member_list := [node8]; left_list := [node7]; joined_list := [] |}.

(** Node 7 is in the left list, but second. *)
Definition self_leaves_second : confchg :=
  {| member_list := [node8]; left_list := [node8; node7];
     joined_list := [] |}.

(** Node 8 joins node 7. *)
Definition peer_joins : confchg :=
  {| member_list := [node7; node8]; left_list := [];
     joined_list := [node8] |}.

(** An empty view. *)
Definition empty_view : confchg :=
  {| member_list := []; left_list := []; joined_list := [] |}.

(** A set-up in which every call succeeds. *)
Definition startup_ok : startup_input :=
  {| si_interval := None; si_recovery := true; si_init_rc := 1;
     si_join_rc := 1; si_local_rc := 1; si_nodeid := 7; si_fd_rc := 1;
     si_fd := 5 |}.

(** A set-up in which [cpg_join] answers CS_ERR_INVALID_PARAM. *)
Definition startup_already_joined : startup_input :=
  {| si_interval := None; si_recovery := true; si_init_rc := 1;
     si_join_rc := 7; si_local_rc := 1; si_nodeid := 7; si_fd_rc := 1;
     si_fd := 5 |}.

(** An iteration in which the role predicate answers "in recovery". *)
Definition recovery_iteration : iter_input :=
  {| ii_interrupt := false; ii_pending := None; ii_dispatch_rc := 6;
     ii_recovery := true; ii_recovery' := true; ii_reload := None;
     ii_wait := Woken |}.

(** An idle iteration: nothing to dispatch, role unchanged on a standby. *)
Definition idle_iteration : iter_input :=
  {| ii_interrupt := false; ii_pending := None; ii_dispatch_rc := 6;
     ii_recovery := true; ii_recovery' := true; ii_reload := None;
     ii_wait := Woken |}.

(** ** Module load *)

(** The capacity of the name fields of a [BackgroundWorker], [BGW_MAXLEN] of
    postmaster/bgworker.h, which is not part of the repository. *)
Class bgworker_h := {
  BGW_MAXLEN : nat
}.

Inductive bgw_flag :=
| BGWORKER_SHMEM_ACCESS
| BGWORKER_BACKEND_DATABASE_CONNECTION.

(** [BgWorkerStartTime], in the order of the enumeration. *)
Inductive BgWorkerStartTime :=
| BgWorkerStart_PostmasterStart
| BgWorkerStart_ConsistentState
| BgWorkerStart_RecoveryFinished.

(** [bgw_restart_time]: a delay in seconds, or never. *)
Inductive bgw_restart :=
| BGW_RESTART_AFTER (seconds : Z)
| BGW_NEVER_RESTART.

(** [struct BackgroundWorker]. *)
Record BackgroundWorker := {
  bgw_name : string;
  bgw_type : string;
  bgw_flags : list bgw_flag;
  bgw_start_time : BgWorkerStartTime;
  bgw_restart_time : bgw_restart;
  bgw_library_name : string;
  bgw_function_name : string;
  bgw_main_arg : Z;
  bgw_extra : string;
  bgw_notify_pid : Z
}.

(** [memset(&worker, 0, sizeof(worker))]. *)
Definition zeroed_worker : BackgroundWorker :=
  {| bgw_name := "";
     bgw_type := "";
     bgw_flags := [];
     bgw_start_time := BgWorkerStart_PostmasterStart;
     bgw_restart_time := BGW_RESTART_AFTER 0;
     bgw_library_name := "";
     bgw_function_name := "";
     bgw_main_arg := 0;
     bgw_extra := "";
     bgw_notify_pid := 0 |}.

(** Module init, called from the postmaster: the workers it hands to
    [RegisterBackgroundWorker], given the host's
    [process_shared_preload_libraries_in_progress]. *)
Definition _PG_init {bgw : bgworker_h}
    (process_shared_preload_libraries_in_progress : bool)
  : list BackgroundWorker :=
  if negb process_shared_preload_libraries_in_progress
  then []
  else
    let worker := zeroed_worker in
    [ {| bgw_flags := [BGWORKER_SHMEM_ACCESS];
         bgw_start_time := BgWorkerStart_ConsistentState;
         bgw_library_name := snprintf BGW_MAXLEN "cpg";
         bgw_function_name := snprintf BGW_MAXLEN "cpg_main";
         bgw_name := snprintf BGW_MAXLEN "cpg";
         bgw_restart_time := BGW_NEVER_RESTART;
         bgw_main_arg := 0;
         bgw_notify_pid := 0;
         bgw_type := bgw_type worker;
         bgw_extra := bgw_extra worker |} ].

(** [BGW_MAXLEN] of PostgreSQL. *)
#[export] Instance postgres_bgworker : bgworker_h := {| BGW_MAXLEN := 96 |}.

(** ** SIGTERM at any point *)

(** [cpg_main] installs [cpg_sigterm] and unblocks the signals before
    anything else (lines 163-168), so the handler can run between any two
    calls of the worker, not only during its wait.  The handler logs and
    exits where the worker stands, without returning.  [ends m g tr t]: the
    process can end during [m], started from [g], having made the calls
    [tr], in the way [t]; either [m] ends it itself, or SIGTERM arrives
    after [k] of its calls, under whatever globals [g'] the worker then
    has, and the handler ends it. *)
Inductive ends {A} (m : M A) (g : globals)
  : list event -> termination -> Prop :=
| ends_itself (t : termination) :
    result_of (m g) = Stop t ->
    ends m g (trace_of (m g)) t
| ends_by_sigterm (k : nat) (g' : globals) (t : termination) :
    (k <= List.length (trace_of (m g)))%nat ->
    result_of (installed_handler SIGTERM g') = Stop t ->
    ends m g
      (firstn k (trace_of (m g))
         ++ trace_of (installed_handler SIGTERM g'))%list
      t.

(** ** Vocabulary of the further properties *)

(** The title a state calls for: what [update_ps_display] would set. *)
Definition status_text (g : globals) : string :=
  snprintf 128 (ps_display_text (in_recovery g) (members g)).

(** The process title after the calls of [t], from the title [cur]. *)
Definition title_after (cur : option string) (t : list event)
  : option string :=
  fold_left (fun cur e =>
               match e with
               | Call_set_ps_display title => Some title
               | _ => cur
               end) t cur.

(** After the run [x], started under the title [cur], the title is the one
    its final globals call for. *)
Definition shows {A} (x : list event * globals * result A)
    (cur : option string) : Prop :=
  title_after cur (trace_of x) = Some (status_text (globals_of x)).

(** [m] keeps the title in step with the globals. *)
Definition fresh {A} (m : M A) : Prop :=
  forall g cur, cur = Some (status_text g) -> shows (m g) cur.

(** [m] brings the title in step with the globals, whatever it was. *)
Definition refreshes {A} (m : M A) : Prop :=
  forall g cur, shows (m g) cur.

(** [m] always returns. *)
Definition nostop {A} (m : M A) : Prop :=
  forall g, exists a, result_of (m g) = Ret a.

(** The calls into the corosync client recorded in a trace. *)
Definition is_corosync_call (e : event) : bool :=
  match e with
  | Call_cpg_model_initialize | Call_cpg_join _ | Call_cpg_local_get
  | Call_cpg_fd_get | Call_cpg_dispatch _ => true
  | _ => false
  end.

Definition corosync_calls (t : list event) : list event :=
  filter is_corosync_call t.

(** The group name [cpg_main] joins. *)
Definition pgsql_group {cs : corosync_h} : cpg_name :=
  {| value := strncpy CPG_GROUP_NAME CPG_MAX_NAME_LENGTH;
     length := strlen CPG_GROUP_NAME |}.

(** The globals a successful set-up leaves when it starts from [g]. *)
Definition globals_after_setup (si : startup_input) (g : globals) : globals :=
  {| interval := match si_interval si with Some v => v | None => 10 end;
     in_recovery := si_recovery si;
     members := members g;
     MyNodeID := si_nodeid si |}.

(** The member count after the deliveries of [inputs], from the count [m]:
    the size, as a [uint32_t], of the last view delivered. *)
Definition last_view_size (m : Z) (inputs : list iter_input) : Z :=
  fold_left (fun m i =>
               match ii_pending i with
               | Some (EvConfchg c) =>
                   to_uint32 (Z.of_nat (List.length (member_list c)))
               | _ => m
               end) inputs m.

(** The waits recorded in a trace. *)
Definition waits (t : list event) : list event := filter is_wait t.

(** The calls of [pfree] recorded in a trace. *)
Definition is_pfree (e : event) : bool :=
  match e with
  | Call_pfree => true
  | _ => false
  end.

(** A setting of [cpg.interval] the GUC machinery accepts. *)
Definition interval_ok (v : Z) : Prop := 1 <= v <= INT_MAX / 1000.

(** A wait as the loop means it: on the descriptor [fd], for the four wake
    events, with a timeout of whole seconds that [int] holds. *)
Definition wait_ok (fd : Z) (e : event) : Prop :=
  match e with
  | Call_WaitLatchOrSocket wake sock timeout =>
      wake = [WL_LATCH_SET; WL_TIMEOUT; WL_EXIT_ON_PM_DEATH;
              WL_SOCKET_READABLE]
      /\ sock = fd
      /\ 1000 <= timeout <= INT_MAX
      /\ timeout mod 1000 = 0
  | _ => True
  end.

(** From globals that satisfy [I], every call of [m] satisfies [Pe] and the
    globals it leaves satisfy [I]. *)
Definition guarded {A} (I : globals -> Prop) (Pe : event -> Prop) (m : M A)
  : Prop :=
  forall g, I g -> Forall Pe (trace_of (m g)) /\ I (globals_of (m g)).

(** The promotion lines of a trace. *)
Definition is_promotion (e : event) : bool :=
  match e with
  | Elog LOG msg => (msg =? "[cpg] I've been promoted!")%string
  | _ => false
  end.

Definition promotions (t : list event) : nat :=
  List.length (filter is_promotion t).

(** The changes of role in the samples [samples], seen from a stored role. *)
Fixpoint role_changes (stored : bool) (samples : list bool) : nat :=
  match samples with
  | [] => 0
  | r :: rest =>
      ((if Bool.eqb r stored then 0 else 1) + role_changes r rest)%nat
  end.

(** A set-up in which every call succeeds and the interval is configured. *)
Definition startup_interval_5 : startup_input :=
  {| si_interval := Some 5; si_recovery := true; si_init_rc := 1;
     si_join_rc := 1; si_local_rc := 1; si_nodeid := 7; si_fd_rc := 1;
     si_fd := 5 |}.

(** An iteration that delivers the arrival of node 8 on a standby that has
    just been promoted, with a reload of the interval to 5 seconds. *)
Definition busy_iteration : iter_input :=
  {| ii_interrupt := false; ii_pending := Some (EvConfchg peer_joins);
     ii_dispatch_rc := 1; ii_recovery := false; ii_recovery' := false;
     ii_reload := Some 5; ii_wait := Woken |}.

(** An iteration whose wait is interrupted by SIGTERM. *)
Definition sigterm_iteration : iter_input :=
  {| ii_interrupt := false; ii_pending := None; ii_dispatch_rc := 6;
     ii_recovery := true; ii_recovery' := true; ii_reload := None;
     ii_wait := Signalled SIGTERM |}.

(** A peer whose node id is derived from the address 192.168.1.10. *)
Definition node_high : cpg_address :=
  {| nodeid := 3232235786; pid := 456; reason := 0 |}.

Definition high_joins : confchg :=
  {| member_list := [node_high; node7]; left_list := [];
     joined_list := [node_high] |}.

(** ** Strings and decimal output *)

Lemma strlen_app (a b : string) :
  String.length (a ++ b) = (String.length a + String.length b)%nat.
Proof.
  induction a as [|ch a IH]; simpl; [reflexivity | now rewrite IH].
Qed.

Lemma substring_0_whole (s : string) : substring 0 (String.length s) s = s.
Proof.
  induction s as [|ch s IH]; simpl; [reflexivity | now rewrite IH].
Qed.

Lemma substring_0_fits (s : string) (n : nat) :
  (String.length s <= n)%nat -> substring 0 n s = s.
Proof.
  revert n; induction s as [|ch s IH]; intros [|n] H; simpl in *;
    try reflexivity; try lia.
  f_equal; apply IH; lia.
Qed.

Lemma substring_0_length (s : string) (n : nat) :
  (String.length (substring 0 n s) <= n)%nat.
Proof.
  revert n; induction s as [|ch s IH]; intros [|n]; simpl; try lia.
  specialize (IH n); lia.
Qed.

Lemma utoa_length (fuel : nat) :
  forall (k : nat) (n : Z) (acc : string),
    (1 <= k)%nat -> 0 <= n < 10 ^ Z.of_nat k ->
    (String.length (utoa fuel n acc) <= k + String.length acc)%nat.
Proof.
  induction fuel as [|fuel IH]; intros k n acc Hk Hn; simpl; [lia|].
  destruct (Z.eqb_spec (n / 10) 0) as [Hq|Hq]; simpl; [lia|].
  destruct k as [|[|k]]; [lia| |].
  - exfalso; apply Hq, Z.div_small; simpl in Hn; lia.
  - assert (Hd : 0 <= n / 10 < 10 ^ Z.of_nat (S k)).
    { replace (Z.of_nat (S (S k))) with (Z.succ (Z.of_nat (S k))) in Hn by lia.
      rewrite Z.pow_succ_r in Hn by lia.
      split; [apply Z.div_pos; lia | apply Z.div_lt_upper_bound; lia]. }
    specialize (IH (S k) (n / 10) (String (digit_char (n mod 10)) acc)
                   ltac:(lia) Hd).
    simpl in IH; lia.
Qed.

Lemma digit_value_char (d : Z) :
  0 <= d < 10 -> digit_value (digit_char d) = d.
Proof.
  intros H.
  assert (Hd : d = 0 \/ d = 1 \/ d = 2 \/ d = 3 \/ d = 4 \/ d = 5 \/ d = 6
               \/ d = 7 \/ d = 8 \/ d = 9) by lia.
  repeat destruct Hd as [->|Hd]; try subst d; reflexivity.
Qed.

Lemma utoa_value (fuel : nat) :
  forall (n : Z) (acc : string),
    0 <= n < 10 ^ Z.of_nat fuel ->
    decimal_value (utoa fuel n acc)
    = n * 10 ^ Z.of_nat (String.length acc) + decimal_value acc.
Proof.
  induction fuel as [|fuel IH]; intros n acc Hn.
  - simpl in *. assert (n = 0) by lia. subst n. reflexivity.
  - cbn [utoa].
    assert (Hmod : 0 <= n mod 10 < 10) by (apply Z.mod_pos_bound; lia).
    assert (Hsplit : n = 10 * (n / 10) + n mod 10)
      by (apply Z.div_mod; lia).
    assert (Hhead :
              decimal_value (String (digit_char (n mod 10)) acc)
              = n mod 10 * 10 ^ Z.of_nat (String.length acc)
                + decimal_value acc)
      by (cbn [decimal_value]; now rewrite digit_value_char).
    destruct (Z.eqb_spec (n / 10) 0) as [Hq|Hq].
    + rewrite Hhead. rewrite Hq in Hsplit. rewrite Hsplit at 2.
      f_equal.
    + replace (Z.of_nat (S fuel)) with (Z.succ (Z.of_nat fuel)) in Hn by lia.
      rewrite Z.pow_succ_r in Hn by lia.
      rewrite IH
        by (split; [apply Z.div_pos; lia | apply Z.div_lt_upper_bound; lia]).
      rewrite Hhead. cbn [String.length].
      replace (Z.of_nat (S (String.length acc)))
        with (Z.succ (Z.of_nat (String.length acc))) by lia.
      rewrite Z.pow_succ_r by lia.
      set (w := 10 ^ Z.of_nat (String.length acc)).
      rewrite Hsplit at 3. ring.
Qed.

(** [fmt_u] prints the decimal digits of its argument. *)
Lemma fmt_u_value (n : Z) :
  0 <= n < 2 ^ 64 -> decimal_value (fmt_u n) = n.
Proof.
  intros H. unfold fmt_u. rewrite utoa_value.
  - simpl. lia.
  - change (10 ^ Z.of_nat 20) with 100000000000000000000. lia.
Qed.

Lemma fmt_u_uint32_length (n : Z) :
  0 <= n < 2 ^ 32 -> (String.length (fmt_u n) <= 10)%nat.
Proof.
  intros Hn; unfold fmt_u.
  pose proof (utoa_length 20 10 n "" ltac:(lia)) as H.
  change (String.length "") with 0%nat in H. rewrite Nat.add_0_r in H.
  apply H. change (10 ^ Z.of_nat 10) with 10000000000. lia.
Qed.

Lemma to_int32_small (z : Z) : 0 <= z < 2 ^ 31 -> to_int32 z = z.
Proof.
  intros H; unfold to_int32.
  rewrite Z.mod_small; lia.
Qed.

Lemma to_int32_large (z : Z) :
  2 ^ 31 <= z < 2 ^ 32 -> to_int32 z = z - 2 ^ 32.
Proof.
  intros H; unfold to_int32.
  replace (z + 2 ^ 31) with ((z - 2 ^ 31) + 1 * 2 ^ 32) by lia.
  rewrite Z.mod_add by lia. rewrite Z.mod_small; lia.
Qed.

Lemma ps_display_text_length (r : bool) (n : Z) :
  0 <= n < 2 ^ 32 -> (String.length (ps_display_text r n) <= 29)%nat.
Proof.
  intros Hn; pose proof (fmt_u_uint32_length n Hn) as H.
  unfold ps_display_text; destruct r; simpl;
    rewrite strlen_app; simpl; lia.
Qed.

(** ** Status projection *)

(** C2: the process title is a function of the member count and the role
    alone: for a [uint32_t] count it is "[<members>] Hello!" in recovery and
    "[<members>] I'm the primary!" otherwise, and whatever is passed to
    [set_ps_display] fits, with its terminator, in 128 bytes. *)
Theorem update_ps_display_status (g : globals) :
  (0 <= members g < 2 ^ 32 ->
   update_ps_display g =
     ([Call_set_ps_display
         (if in_recovery g
          then "[" ++ fmt_u (members g) ++ "] Hello!"
          else "[" ++ fmt_u (members g) ++ "] I'm the primary!")],
      g, Ret tt))
  /\ (forall title,
        In (Call_set_ps_display title) (trace_of (update_ps_display g)) ->
        (String.length title + 1 <= 128)%nat)
  /\ (forall g',
        members g' = members g -> in_recovery g' = in_recovery g ->
        trace_of (update_ps_display g') = trace_of (update_ps_display g)).
Proof.
  split; [|split].
  - intros Hm.
    pose proof (ps_display_text_length (in_recovery g) (members g) Hm) as Hl.
    unfold update_ps_display, set_ps_display, bind, get, emit, snprintf.
    rewrite substring_0_fits by (simpl; lia).
    unfold ps_display_text; destruct (in_recovery g); reflexivity.
  - intros title [H|[]]. injection H as <-.
    unfold snprintf.
    pose proof (substring_0_length
                  (ps_display_text (in_recovery g) (members g)) (128 - 1)).
    simpl in *; lia.
  - intros g' Hm Hr.
    unfold update_ps_display, set_ps_display, bind, get, emit, trace_of; simpl.
    now rewrite Hm, Hr.
Qed.

Lemma update_ps_display_status_witness :
  update_ps_display
    {| interval := 10; in_recovery := true; members := 2; MyNodeID := 7 |}
  = ([Call_set_ps_display "[2] Hello!"],
     {| interval := 10; in_recovery := true; members := 2; MyNodeID := 7 |},
     Ret tt).
Proof.
  apply (update_ps_display_status
           {| interval := 10; in_recovery := true; members := 2;
              MyNodeID := 7 |}).
  simpl; lia.
Defined.

(** ** Running computations *)

Lemma bind_run {A B} (m : M A) (k : A -> M B) (g : globals) :
  bind m k g =
  match result_of (m g) with
  | Ret a => prepend_trace (trace_of (m g)) (k a (globals_of (m g)))
  | Stop t => (trace_of (m g), globals_of (m g), Stop t)
  end.
Proof.
  unfold bind, prepend_trace, trace_of, globals_of, result_of.
  destruct (m g) as [[t1 g1] [a|t]]; simpl; [|reflexivity].
  destruct (k a g1) as [[t2 g2] r]; reflexivity.
Qed.

Lemma emits_bind {A B} (Pe : event -> Prop) (m : M A) (k : A -> M B) :
  emits Pe m -> (forall a, emits Pe (k a)) -> emits Pe (bind m k).
Proof.
  intros Hm Hk g. rewrite bind_run. specialize (Hm g).
  destruct (result_of (m g)) as [a|t]; [|exact Hm].
  unfold prepend_trace, trace_of at 1; simpl.
  apply Forall_app; split; [exact Hm | apply Hk].
Qed.

Lemma emits_ret {A} (Pe : event -> Prop) (a : A) : emits Pe (ret a).
Proof. intros g; constructor. Qed.

Lemma emits_stop {A} (Pe : event -> Prop) (t : termination) :
  emits Pe (@stop A t).
Proof. intros g; constructor. Qed.

Lemma emits_get (Pe : event -> Prop) : emits Pe get.
Proof. intros g; constructor. Qed.

Lemma emits_put (Pe : event -> Prop) (g' : globals) : emits Pe (put g').
Proof. intros g; constructor. Qed.

Lemma emits_emit (Pe : event -> Prop) (e : event) : Pe e -> emits Pe (emit e).
Proof. intros He g; repeat constructor; exact He. Qed.

Lemma keeps_bind {A B C} (f : globals -> C) (m : M A) (k : A -> M B) :
  keeps f m -> (forall a, keeps f (k a)) -> keeps f (bind m k).
Proof.
  intros Hm Hk g. rewrite bind_run. specialize (Hm g).
  destruct (result_of (m g)) as [a|t]; [|exact Hm].
  unfold prepend_trace, globals_of at 1; simpl.
  rewrite <- Hm. apply Hk.
Qed.

Lemma keeps_ret {A C} (f : globals -> C) (a : A) : keeps f (ret a).
Proof. intros g; reflexivity. Qed.

Lemma stops_bind {A B} (S : termination -> Prop) (m : M A) (k : A -> M B) :
  stops S m -> (forall a, stops S (k a)) -> stops S (bind m k).
Proof.
  intros Hm Hk g t. rewrite bind_run.
  destruct (result_of (m g)) as [a|t'] eqn:E.
  - unfold prepend_trace, result_of at 1; simpl. apply Hk.
  - unfold result_of at 1; simpl. intros H; injection H as <-.
    apply (Hm g t' E).
Qed.

Lemma returns_bind {A B} (P' : A -> Prop) (P : B -> Prop) (m : M A)
    (k : A -> M B) :
  returns P' m -> (forall a, P' a -> returns P (k a)) ->
  returns P (bind m k).
Proof.
  intros Hm Hk g b. rewrite bind_run.
  destruct (result_of (m g)) as [a|t'] eqn:E.
  - unfold prepend_trace, result_of at 1; simpl. apply (Hk a (Hm g a E)).
  - unfold result_of at 1; simpl. discriminate.
Qed.

Lemma returns_any {A} (m : M A) : returns (fun _ => True) m.
Proof. intros g a _. exact I. Qed.

Lemma stops_ret {A} (S : termination -> Prop) (a : A) : stops S (ret a).
Proof. intros g t H; discriminate. Qed.

Lemma stops_emit (S : termination -> Prop) (e : event) : stops S (emit e).
Proof. intros g t H; discriminate. Qed.

Lemma stops_get (S : termination -> Prop) : stops S get.
Proof. intros g t H; discriminate. Qed.

Lemma stops_put (S : termination -> Prop) (g' : globals) : stops S (put g').
Proof. intros g t H; discriminate. Qed.

Lemma stops_stop {A} (S : termination -> Prop) (t : termination) :
  S t -> stops S (@stop A t).
Proof. intros Ht g t' H; injection H as <-; exact Ht. Qed.

Lemma bind_returns_ext {A B} (P : A -> Prop) (m : M A) (k k' : A -> M B)
    (g : globals) :
  returns P m -> (forall a g', P a -> k a g' = k' a g') ->
  bind m k g = bind m k' g.
Proof.
  intros Hm Hk. rewrite !bind_run.
  destruct (result_of (m g)) as [a|t] eqn:E; [|reflexivity].
  now rewrite (Hk a _ (Hm g a E)).
Qed.

Lemma in_trace_bind {A B} (m : M A) (k : A -> M B) (g : globals) (e : event) :
  In e (trace_of (bind m k g)) ->
  In e (trace_of (m g))
  \/ exists a, result_of (m g) = Ret a
               /\ In e (trace_of (k a (globals_of (m g)))).
Proof.
  rewrite bind_run. destruct (result_of (m g)) as [a|t].
  - unfold prepend_trace, trace_of at 1; simpl. intros H.
    apply in_app_or in H. destruct H; [now left | right; now exists a].
  - unfold trace_of at 1; simpl. now left.
Qed.

(** Unfolds the monad and the host calls so that a run computes. *)
Ltac run_M :=
  unfold elog_s, elog, exit, set_ps_display, RecoveryInProgress,
    CHECK_FOR_INTERRUPTS, HandleMainLoopInterrupts, DefineCustomIntVariable,
    WaitLatchOrSocket, set_interval, set_in_recovery, set_members,
    set_MyNodeID, bind, get, put, emit, ret, stop,
    trace_of, globals_of, result_of, prepend_trace in *.

(** ** The membership callback *)

(** The run of [cs_config_cb], computed: the title and the log line, then
    the test of the head of the left list. *)
Lemma cs_config_cb_run (MyProcPid : Z) (c : confchg) (g : globals) :
  let g1 := {| interval := interval g; in_recovery := in_recovery g;
               members := to_uint32 (Z.of_nat (List.length (member_list c)));
               MyNodeID := MyNodeID g |} in
  let evicted :=
    match left_list c with
    | a :: _ => (to_int32 (pid a) =? MyProcPid) && (nodeid a =? MyNodeID g)
    | [] => false
    end in
  cs_config_cb MyProcPid c g =
  if evicted
  then ([Call_set_ps_display
           (snprintf 128 (ps_display_text (in_recovery g) (members g1)));
         members_log c; Call_pfree;
         Elog FATAL "[cpg] I left the closed process group!"],
        g1, Stop FatalExit)
  else ([Call_set_ps_display
           (snprintf 128 (ps_display_text (in_recovery g) (members g1)));
         members_log c; Call_pfree],
        g1, Ret tt).
Proof.
  intros g1 evicted.
  unfold cs_config_cb, update_ps_display, members_log. run_M.
  cbn [members in_recovery]. subst evicted.
  destruct (cstring_at (sum_up_members (member_list c)) 2) as [s|];
    destruct (left_list c) as [|a l]; cbn -[snprintf ps_display_text Z.of_nat fmt_u fmt_d sum_up_members cstring_at to_int32 to_uint32 Z.eqb];
    try reflexivity.
  - replace (Z.of_nat (S (List.length l)) =? 0) with false
      by (symmetry; apply Z.eqb_neq; lia).
    cbn -[snprintf ps_display_text Z.of_nat fmt_u fmt_d sum_up_members cstring_at to_int32 to_uint32 Z.eqb].
    destruct ((to_int32 (pid a) =? MyProcPid) && (nodeid a =? MyNodeID g));
      reflexivity.
  - replace (Z.of_nat (S (List.length l)) =? 0) with false
      by (symmetry; apply Z.eqb_neq; lia).
    cbn -[snprintf ps_display_text Z.of_nat fmt_u fmt_d sum_up_members cstring_at to_int32 to_uint32 Z.eqb].
    destruct ((to_int32 (pid a) =? MyProcPid) && (nodeid a =? MyNodeID g));
      reflexivity.
Qed.

Lemma members_log_cases (c : confchg) :
  (exists msg, members_log c = Elog LOG msg)
  \/ (exists msg, members_log c = Elog_indeterminate LOG msg).
Proof.
  unfold members_log.
  destruct (cstring_at (sum_up_members (member_list c)) 2);
    [left | right]; eexists; reflexivity.
Qed.

Lemma loop_body_callback_stops {cs : corosync_h} (MyProcPid cpg_fd : Z)
    (i : iter_input) (g : globals) (c : confchg)
    (t : list event) (g1 : globals) (s : termination) :
  ii_interrupt i = false ->
  ii_pending i = Some (EvConfchg c) ->
  cs_config_cb MyProcPid c g = (t, g1, Stop s) ->
  loop_body MyProcPid cpg_fd i g =
  (Call_CHECK_FOR_INTERRUPTS :: Call_cpg_dispatch CS_DISPATCH_ONE_NONBLOCKING
     :: t, g1, Stop s).
Proof.
  intros Hi Hp Hc.
  unfold loop_body, dispatch_step, cpg_dispatch, model_data.
  rewrite Hi, Hp. run_M. cbn -[cs_config_cb]. rewrite Hc. reflexivity.
Qed.

(** C1: when the left list is non-empty and its first entry is the worker's
    own address (MyNodeID, MyProcPid), the callback does not return: its last
    call is the FATAL log "[cpg] I left the closed process group!", and the
    loop iteration that dispatched it ends there, before its wait.  When the
    first entry of the left list is another address (so the worker's own
    address is absent from it or sits at a later position), the callback
    returns normally and logs nothing at FATAL. *)
Theorem cs_config_cb_self_eviction {cs : corosync_h} (MyProcPid : Z)
    (c : confchg) (g : globals) :
  0 <= MyProcPid < 2 ^ 31 ->
  (forall a, In a (left_list c) -> 0 <= pid a < 2 ^ 32) ->
  let self := (MyNodeID g, MyProcPid) in
  let out := cs_config_cb MyProcPid c g in
  (forall a, nth_error (left_list c) 0 = Some a -> address a = self ->
     result_of out = Stop FatalExit
     /\ (exists t,
           trace_of out =
           (t ++ [Elog FATAL "[cpg] I left the closed process group!"])%list
           /\ fatal_messages t = [])
     /\ substring 6 31 "[cpg] I left the closed process group!"
        = "I left the closed process group"
     /\ forall cpg_fd i,
          ii_interrupt i = false -> ii_pending i = Some (EvConfchg c) ->
          result_of (loop_body MyProcPid cpg_fd i g) = Stop FatalExit
          /\ forall wake sock timeout,
               ~ In (Call_WaitLatchOrSocket wake sock timeout)
                    (trace_of (loop_body MyProcPid cpg_fd i g)))
  /\ ((forall a, nth_error (left_list c) 0 = Some a -> address a <> self) ->
      result_of out = Ret tt /\ fatal_messages (trace_of out) = []).
Proof.
  intros Hpid Hleft self out.
  pose proof (cs_config_cb_run MyProcPid c g) as Hrun. cbv zeta in Hrun.
  fold out in Hrun.
  assert (Hlog : forall p, fatal_messages [p; members_log c; Call_pfree]
                           = fatal_messages [p]).
  { intros p.
    destruct (members_log_cases c) as [[m Hm]|[m Hm]]; rewrite Hm;
      destruct p; try destruct lvl; reflexivity. }
  split.
  - intros a Ha Haddr.
    destruct (left_list c) as [|a' l] eqn:El; [discriminate|].
    injection Ha as ->. unfold address, self in Haddr.
    injection Haddr as Hn Hp.
    rewrite Hn, Hp, to_int32_small, !Z.eqb_refl in Hrun by lia.
    cbn [andb] in Hrun.
    split; [now rewrite Hrun|].
    split; [|split; [reflexivity|]].
    + eexists. rewrite Hrun. split.
      * unfold trace_of; cbn [fst].
        change (?x :: ?y :: ?z :: [?w]) with ([x; y; z] ++ [w])%list.
        reflexivity.
      * now rewrite Hlog.
    + intros cpg_fd i Hi Hpend.
      rewrite (loop_body_callback_stops MyProcPid cpg_fd i g c _ _ _
                 Hi Hpend Hrun).
      split; [reflexivity|].
      intros wake sock timeout Hin. unfold trace_of in Hin; cbn [fst] in Hin.
      destruct (members_log_cases c) as [[m Hm]|[m Hm]]; rewrite Hm in Hin;
        simpl in Hin; intuition discriminate.
  - intros Hhead.
    assert (Hev : match left_list c with
                  | a :: _ =>
                      (to_int32 (pid a) =? MyProcPid)
                      && (nodeid a =? MyNodeID g)
                  | [] => false
                  end = false).
    { destruct (left_list c) as [|a l] eqn:El; [reflexivity|].
      apply andb_false_iff.
      destruct (Z.eqb_spec (nodeid a) (MyNodeID g)) as [Hn|Hn];
        [left | now right].
      apply Z.eqb_neq. intros Hp.
      apply (Hhead a eq_refl). unfold address, self. f_equal; [exact Hn|].
      pose proof (Hleft a (or_introl eq_refl)) as Hr.
      destruct (Z_lt_le_dec (pid a) (2 ^ 31)) as [Hs|Hl].
      - rewrite to_int32_small in Hp by lia. exact Hp.
      - rewrite to_int32_large in Hp by lia. lia. }
    rewrite Hev in Hrun. rewrite Hrun.
    split; [reflexivity|]. unfold trace_of; cbn [fst]. now rewrite Hlog.
Qed.

Lemma cs_config_cb_self_eviction_witness :
  result_of (cs_config_cb 123 self_leaves standby7) = Stop FatalExit
  /\ result_of (cs_config_cb 123 self_leaves_second standby7) = Ret tt.
Proof.
  split.
  - refine (proj1 (proj1 (@cs_config_cb_self_eviction corosync_3 123
                            self_leaves standby7 _ _) node7 eq_refl eq_refl)).
    + lia.
    + intros a [<-|[]]; simpl; lia.
  - refine (proj1 (proj2 (@cs_config_cb_self_eviction corosync_3 123
                            self_leaves_second standby7 _ _) _)).
    + lia.
    + intros a [<-|[<-|[]]]; simpl; lia.
    + intros a Ha; injection Ha as <-. discriminate.
Defined.

(** ** The event loop, step by step *)

Lemma role_step_run (i : iter_input) (g : globals) :
  role_step i g =
  if Bool.eqb (ii_recovery i) (in_recovery g)
  then ([Call_RecoveryInProgress; Elog LOG "[cpg] Hi!"], g, Ret tt)
  else ([Call_RecoveryInProgress; Elog LOG "[cpg] I've been promoted!";
         Call_RecoveryInProgress;
         Call_set_ps_display
           (snprintf 128 (ps_display_text (ii_recovery' i) (members g)))],
        {| interval := interval g; in_recovery := ii_recovery' i;
           members := members g; MyNodeID := MyNodeID g |},
        Ret tt).
Proof.
  unfold role_step, update_ps_display. run_M.
  cbn -[snprintf ps_display_text].
  destruct (Bool.eqb (ii_recovery i) (in_recovery g)); reflexivity.
Qed.

(** C3, as the code has it: the line "[cpg] I've been promoted!" is logged
    exactly when the sampled role differs from the stored one, in either
    direction, so in particular when the worker was in recovery and no
    longer is; there is no other message for a change of role.  On a change
    the stored role becomes the role sampled again for the assignment and
    the process title is refreshed from it; without a change the only log
    is the heartbeat and nothing is stored. *)
Theorem role_step_logs_any_change (i : iter_input) (g : globals) :
  let out := role_step i g in
  (In (Elog LOG "[cpg] I've been promoted!") (trace_of out)
   <-> ii_recovery i <> in_recovery g)
  /\ (in_recovery g = true -> ii_recovery i = false ->
      In (Elog LOG "[cpg] I've been promoted!") (trace_of out))
  /\ (forall lvl msg, In (Elog lvl msg) (trace_of out) ->
      lvl = LOG /\ (msg = "[cpg] I've been promoted!" \/ msg = "[cpg] Hi!"))
  /\ (ii_recovery i <> in_recovery g ->
      out =
      ([Call_RecoveryInProgress; Elog LOG "[cpg] I've been promoted!";
        Call_RecoveryInProgress;
        Call_set_ps_display
          (snprintf 128 (ps_display_text (ii_recovery' i) (members g)))],
       {| interval := interval g; in_recovery := ii_recovery' i;
          members := members g; MyNodeID := MyNodeID g |},
       Ret tt))
  /\ (ii_recovery i = in_recovery g ->
      out = ([Call_RecoveryInProgress; Elog LOG "[cpg] Hi!"], g, Ret tt)).
Proof.
  intros out. subst out. rewrite role_step_run.
  destruct (ii_recovery i), (in_recovery g); cbn -[snprintf ps_display_text];
    unfold trace_of; cbn -[snprintf ps_display_text];
    repeat split; intros;
    repeat match goal with
           | H : _ \/ _ |- _ => destruct H
           | H : Elog _ _ = Elog _ _ |- _ => injection H as <- <-
           | H : False |- _ => destruct H
           end;
    try discriminate; try congruence; auto.
Qed.

(** C3, refuted as stated: on a primary whose role predicate answers
    "in recovery", the iteration logs the promotion line although the
    previous role was not in-recovery. *)
Lemma demotion_logged_as_promotion :
  ~ (In (Elog LOG "[cpg] I've been promoted!")
        (trace_of (@loop_body corosync_3 123 5 recovery_iteration primary7))
     <-> (in_recovery primary7 = true
          /\ ii_recovery recovery_iteration = false)).
Proof.
  intros [H _].
  assert (Hin : In (Elog LOG "[cpg] I've been promoted!")
                  (trace_of (@loop_body corosync_3 123 5 recovery_iteration
                               primary7))).
  { vm_compute. auto 10. }
  destruct (H Hin) as [_ Hf]. discriminate.
Qed.

(** Splits a goal [emits Pe m] along the structure of [m]. *)
Ltac emits_tac :=
  repeat first
    [ progress cbv beta iota
    | apply emits_ret | apply emits_stop | apply emits_get | apply emits_put
    | apply emits_emit; reflexivity
    | apply emits_bind; [|intros]
    | match goal with
      | |- emits _ (match ?x with _ => _ end) => destruct x
      end ].

Ltac unfold_worker :=
  unfold cs_config_cb, update_ps_display, role_step, wait_step,
    installed_handler, cpg_sigterm, cpg_main_after_loop,
    elog_s, elog, exit, set_ps_display, RecoveryInProgress,
    CHECK_FOR_INTERRUPTS, HandleMainLoopInterrupts, DefineCustomIntVariable,
    WaitLatchOrSocket, set_interval, set_in_recovery, set_members,
    set_MyNodeID.

Lemma cs_config_cb_no_dispatch (MyProcPid : Z) (c : confchg) :
  emits not_dispatch (cs_config_cb MyProcPid c).
Proof. unfold_worker. emits_tac. Qed.

Lemma role_step_no_dispatch (i : iter_input) : emits not_dispatch (role_step i).
Proof. unfold_worker. emits_tac. Qed.

Lemma wait_step_no_dispatch (cpg_fd : Z) (i : iter_input) :
  emits not_dispatch (wait_step cpg_fd i).
Proof. unfold_worker. emits_tac. Qed.

Lemma attempts_bind {A B} (m : M A) (k : A -> M B) (g : globals) :
  dispatch_attempts (trace_of (bind m k g)) =
  (dispatch_attempts (trace_of (m g))
     ++ match result_of (m g) with
        | Ret a => dispatch_attempts (trace_of (k a (globals_of (m g))))
        | Stop _ => []
        end)%list.
Proof.
  rewrite bind_run. destruct (result_of (m g)) as [a|t].
  - unfold prepend_trace, trace_of at 1; simpl.
    unfold dispatch_attempts. apply filter_app.
  - unfold trace_of at 1; simpl. now rewrite app_nil_r.
Qed.

Lemma no_attempts {A} (m : M A) (g : globals) :
  emits not_dispatch m -> dispatch_attempts (trace_of (m g)) = [].
Proof.
  intros H. specialize (H g). unfold dispatch_attempts.
  induction H as [|e t He _ IH]; simpl; [reflexivity|].
  unfold not_dispatch in He. now rewrite He.
Qed.

Lemma dispatch_step_run {cs : corosync_h} (MyProcPid : Z) (i : iter_input)
    (g : globals) :
  let d := cpg_dispatch (model_data MyProcPid) CS_DISPATCH_ONE_NONBLOCKING
             (ii_pending i) (ii_dispatch_rc i) g in
  dispatch_step MyProcPid i g =
  match result_of d with
  | Ret rc =>
      if rc =? CS_OK
      then ((trace_of d ++ [Elog DEBUG1 "[cpg] dispatched one event"])%list,
            globals_of d, Ret tt)
      else if rc =? CS_ERR_TRY_AGAIN
      then (trace_of d, globals_of d, Ret tt)
      else ((trace_of d
               ++ [Elog FATAL ("[cpg] dispatching callback failed: "
                                 ++ fmt_d rc)])%list,
            globals_of d, Stop FatalExit)
  | Stop t => (trace_of d, globals_of d, Stop t)
  end.
Proof.
  intros d. unfold dispatch_step. rewrite bind_run. fold d.
  destruct (result_of d) as [rc|t]; [|reflexivity].
  destruct (rc =? CS_OK); [reflexivity|].
  destruct (rc =? CS_ERR_TRY_AGAIN); cbn -[fmt_d]; [|reflexivity].
  unfold prepend_trace; cbn. now rewrite app_nil_r.
Qed.

Lemma loop_body_run {cs : corosync_h} (MyProcPid cpg_fd : Z) (i : iter_input)
    (g : globals) :
  ii_interrupt i = false ->
  loop_body MyProcPid cpg_fd i g =
  match result_of (dispatch_step MyProcPid i g) with
  | Ret _ =>
      prepend_trace
        (Call_CHECK_FOR_INTERRUPTS :: trace_of (dispatch_step MyProcPid i g))
        (after_dispatch cpg_fd i (globals_of (dispatch_step MyProcPid i g)))
  | Stop t =>
      (Call_CHECK_FOR_INTERRUPTS :: trace_of (dispatch_step MyProcPid i g),
       globals_of (dispatch_step MyProcPid i g), Stop t)
  end.
Proof.
  intros Hi. unfold loop_body, after_dispatch. rewrite Hi. run_M.
  cbn -[dispatch_step role_step wait_step].
  destruct (dispatch_step MyProcPid i g) as [[t1 g1] [[]|t]];
    cbn -[role_step wait_step]; [|reflexivity].
  destruct (role_step i g1) as [[t2 g2] [[]|t]];
    cbn -[wait_step]; [|reflexivity].
  destruct (wait_step cpg_fd i g2) as [[t3 g3] [[]|t]]; reflexivity.
Qed.


Lemma cpg_dispatch_attempts (MyProcPid : Z) (f : cs_dispatch_flags_t)
    (pending : option cpg_event) (rc : Z) (g : globals) :
  dispatch_attempts
    (trace_of (cpg_dispatch (model_data MyProcPid) f pending rc g))
  = [Call_cpg_dispatch f].
Proof.
  unfold cpg_dispatch. rewrite attempts_bind.
  change (result_of (emit (Call_cpg_dispatch f) g)) with (Ret tt).
  change (trace_of (emit (Call_cpg_dispatch f) g)) with [Call_cpg_dispatch f].
  rewrite no_attempts; [reflexivity|].
  apply emits_bind; [|intros; apply emits_ret].
  destruct pending as [[c| |]|]; cbn [model_data cpg_confchg_fn cpg_deliver_fn
                                        cpg_totem_confchg_fn];
    try apply emits_ret.
  apply cs_config_cb_no_dispatch.
Qed.

Lemma dispatch_step_attempts {cs : corosync_h} (MyProcPid : Z)
    (i : iter_input) (g : globals) :
  dispatch_attempts (trace_of (dispatch_step MyProcPid i g))
  = [Call_cpg_dispatch CS_DISPATCH_ONE_NONBLOCKING].
Proof.
  unfold dispatch_step. rewrite attempts_bind, cpg_dispatch_attempts.
  destruct (result_of _) as [rc|t]; [|reflexivity].
  rewrite no_attempts; [reflexivity|].
  unfold_worker. emits_tac.
Qed.

Lemma after_dispatch_no_dispatch (cpg_fd : Z) (i : iter_input) :
  emits not_dispatch (after_dispatch cpg_fd i).
Proof.
  unfold after_dispatch.
  apply emits_bind; [apply role_step_no_dispatch|intros].
  apply emits_bind; [apply wait_step_no_dispatch|intros; apply emits_ret].
Qed.

Lemma loop_body_attempts {cs : corosync_h} (MyProcPid cpg_fd : Z)
    (i : iter_input) (g : globals) :
  ii_interrupt i = false ->
  dispatch_attempts (trace_of (loop_body MyProcPid cpg_fd i g))
  = [Call_cpg_dispatch CS_DISPATCH_ONE_NONBLOCKING].
Proof.
  intros Hi. rewrite (loop_body_run MyProcPid cpg_fd i g Hi).
  pose proof (dispatch_step_attempts MyProcPid i g) as Hd.
  destruct (result_of (dispatch_step MyProcPid i g)).
  - unfold prepend_trace, trace_of at 1; cbn [fst].
    pose proof (no_attempts (after_dispatch cpg_fd i)
                  (globals_of (dispatch_step MyProcPid i g))
                  (after_dispatch_no_dispatch cpg_fd i)) as Ha.
    unfold dispatch_attempts in *. rewrite filter_app, Ha.
    cbn [filter is_dispatch]. now rewrite Hd.
  - unfold trace_of at 1; cbn [fst]. exact Hd.
Qed.



(** ** What the loop leaves unchanged *)

(** Splits a goal [keeps f m] along the structure of [m]; the leaves
    compute. *)
Ltac keeps_tac :=
  repeat first
    [ progress cbv beta iota
    | solve [intro; reflexivity]
    | apply keeps_bind; [|intros]
    | match goal with
      | |- keeps _ (match ?x with _ => _ end) => destruct x
      end ].

Ltac unfold_steps :=
  unfold cs_config_cb, update_ps_display, role_step, wait_step,
    installed_handler, cpg_sigterm, cpg_main_after_loop,
    elog_s, elog, exit, set_ps_display, RecoveryInProgress,
    CHECK_FOR_INTERRUPTS, HandleMainLoopInterrupts, DefineCustomIntVariable,
    WaitLatchOrSocket.

Lemma role_step_keeps_members (i : iter_input) : keeps members (role_step i).
Proof. unfold_steps. keeps_tac. Qed.

Lemma wait_step_keeps_members (cpg_fd : Z) (i : iter_input) :
  keeps members (wait_step cpg_fd i).
Proof. unfold_steps. keeps_tac. Qed.

Lemma dispatch_step_keeps_members {cs : corosync_h} (MyProcPid : Z)
    (i : iter_input) :
  (forall c, ii_pending i <> Some (EvConfchg c)) ->
  keeps members (dispatch_step MyProcPid i).
Proof.
  intros Hp. unfold dispatch_step, cpg_dispatch.
  destruct (ii_pending i) as [[c| |]|]; [now destruct (Hp c)| | |];
    cbn [model_data cpg_deliver_fn cpg_totem_confchg_fn];
    unfold_steps; keeps_tac.
Qed.

Lemma loop_body_keeps_members {cs : corosync_h} (MyProcPid cpg_fd : Z)
    (i : iter_input) :
  (forall c, ii_pending i <> Some (EvConfchg c)) ->
  keeps members (loop_body MyProcPid cpg_fd i).
Proof.
  intros Hp. unfold loop_body.
  apply keeps_bind; [unfold_steps; keeps_tac | intros].
  apply keeps_bind; [now apply dispatch_step_keeps_members | intros].
  apply keeps_bind; [apply role_step_keeps_members | intros].
  apply keeps_bind; [apply wait_step_keeps_members | intros].
  apply keeps_ret.
Qed.

Lemma for_ever_keeps {B} (f : globals -> B)
    (body : iter_input -> M control) (inputs : list iter_input) :
  (forall i, In i inputs -> keeps f (body i)) ->
  keeps f (for_ever body inputs).
Proof.
  induction inputs as [|i rest IH]; intros Hb; cbn [for_ever].
  - apply keeps_ret.
  - apply keeps_bind; [apply Hb; now left | intros [|]].
    + apply IH. intros j Hj. apply Hb. now right.
    + apply keeps_ret.
Qed.

(** C5: the membership callback stores the number of entries of the view it
    is given in [members] (a view has fewer than 2^32 entries), whether or
    not it returns; every iteration of the loop that delivers no membership
    callback leaves [members] as it is, so the count stands until the next
    delivery. *)
Theorem members_is_view_size {cs : corosync_h} (MyProcPid : Z) (c : confchg)
    (g : globals) :
  Z.of_nat (List.length (member_list c)) < 2 ^ 32 ->
  let g1 := globals_of (cs_config_cb MyProcPid c g) in
  members g1 = Z.of_nat (List.length (member_list c))
  /\ forall cpg_fd inputs,
       (forall i c', In i inputs -> ii_pending i <> Some (EvConfchg c')) ->
       members (globals_of (for_ever (loop_body MyProcPid cpg_fd) inputs g1))
       = Z.of_nat (List.length (member_list c)).
Proof.
  intros Hsize g1.
  assert (Hm : members g1 = Z.of_nat (List.length (member_list c))).
  { subst g1. rewrite cs_config_cb_run. cbv zeta.
    destruct (match left_list c with [] => false | _ => _ end);
      unfold globals_of; cbn [fst snd members];
      unfold to_uint32; apply Z.mod_small; lia. }
  split; [exact Hm|].
  intros cpg_fd inputs Hnone. rewrite <- Hm.
  apply (for_ever_keeps members). intros i Hi.
  apply loop_body_keeps_members. intros c'. now apply Hnone.
Qed.

Lemma members_is_view_size_witness :
  members (globals_of (cs_config_cb 123 peer_joins standby7)) = 2.
Proof.
  refine (proj1 (@members_is_view_size corosync_3 123 peer_joins standby7 _)).
  simpl; lia.
Defined.

(** ** Opening the session *)

Lemma eqb_true (a b : Z) : a = b -> (a =? b) = true.
Proof. apply Z.eqb_eq. Qed.

Lemma eqb_false (a b : Z) : a <> b -> (a =? b) = false.
Proof. apply Z.eqb_neq. Qed.

(** Decides the tests of a code in a run from the facts at hand. *)
Ltac decide_codes :=
  repeat match goal with
         | H : ?a = ?b |- context [?a =? ?b] => rewrite (eqb_true a b H)
         | H : ?a <> ?b |- context [?a =? ?b] => rewrite (eqb_false a b H)
         end.

(** C6, as the code has it: each failure while the session is opened ends
    the process at a FATAL log.  The log carries the code the call returned,
    in decimal, when [cpg_model_initialize], [cpg_local_get] or [cpg_fd_get]
    fails and when [cpg_join] fails with a code other than
    CS_ERR_INVALID_PARAM; for CS_ERR_INVALID_PARAM the message is the fixed
    text "[cpg] the handle is already joined to a group".  When the four
    calls succeed nothing is logged at FATAL and the descriptor is
    returned. *)
Theorem session_open_failures {cs : corosync_h} (si : startup_input)
    (g : globals) :
  CS_OK <> CS_ERR_INVALID_PARAM ->
  let out := cpg_main_setup si g in
  (si_init_rc si <> CS_OK ->
   ends_fatally out
     ("[cpg] could not init the cpg handle: " ++ fmt_d (si_init_rc si)))
  /\ (si_init_rc si = CS_OK -> si_join_rc si = CS_ERR_INVALID_PARAM ->
      ends_fatally out "[cpg] the handle is already joined to a group")
  /\ (si_init_rc si = CS_OK ->
      si_join_rc si <> CS_OK -> si_join_rc si <> CS_ERR_INVALID_PARAM ->
      ends_fatally out
        ("[cpg] could not join the close process group: "
           ++ fmt_d (si_join_rc si)))
  /\ (si_init_rc si = CS_OK -> si_join_rc si = CS_OK ->
      si_local_rc si <> CS_OK ->
      ends_fatally out
        ("[cpg] failed to get local nodeid: " ++ fmt_d (si_local_rc si)))
  /\ (si_init_rc si = CS_OK -> si_join_rc si = CS_OK ->
      si_local_rc si = CS_OK -> si_fd_rc si <> CS_OK ->
      ends_fatally out
        ("[cpg] failed to get the CPG file descriptor: "
           ++ fmt_d (si_fd_rc si)))
  /\ (si_init_rc si = CS_OK -> si_join_rc si = CS_OK ->
      si_local_rc si = CS_OK -> si_fd_rc si = CS_OK ->
      result_of out = Ret (si_fd si) /\ fatal_messages (trace_of out) = []).
Proof.
  intros Hcodes out. subst out.
  unfold cpg_main_setup, update_ps_display, ends_fatally.
  destruct (si_interval si); run_M;
    cbn -[fmt_d snprintf ps_display_text strncpy strlen Z.eqb];
    repeat split; intros;
    repeat match goal with
           | H : ?x = CS_OK |- _ => rewrite H in *; clear H
           | H : ?x = CS_ERR_INVALID_PARAM |- _ => rewrite H in *; clear H
           end;
    rewrite ?Z.eqb_refl; decide_codes;
    try rewrite (eqb_false CS_ERR_INVALID_PARAM CS_OK) by congruence;
    reflexivity.
Qed.

Lemma session_open_failures_witness :
  ends_fatally (@cpg_main_setup corosync_3 startup_already_joined globals0)
    "[cpg] the handle is already joined to a group".
Proof.
  refine (proj1 (proj2 (@session_open_failures corosync_3
                          startup_already_joined globals0 _)) _ _).
  - discriminate.
  - reflexivity.
  - reflexivity.
Defined.

(** C6, refuted as stated: when [cpg_join] answers CS_ERR_INVALID_PARAM
    (7 in corosync) the set-up ends at a FATAL log, and no FATAL message of
    the run contains the code. *)
Lemma already_joined_hides_code :
  ~ (exists msg,
       In msg (fatal_messages
                 (trace_of (@cpg_main_setup corosync_3 startup_already_joined
                              globals0)))
       /\ mentions (si_join_rc startup_already_joined) msg = true).
Proof.
  intros [msg [Hin Hm]]. vm_compute in Hin.
  destruct Hin as [<-|[]]. vm_compute in Hm. discriminate.
Qed.

Lemma list_ascii_length (s : string) :
  List.length (list_ascii_of_string s) = String.length s.
Proof.
  induction s as [|ch s IH]; simpl; [reflexivity | now rewrite IH].
Qed.

Lemma strncpy_fits (src : string) (n : nat) :
  (String.length src <= n)%nat ->
  strncpy src n
  = (list_ascii_of_string src ++ repeat zero (n - String.length src))%list.
Proof.
  intros H. unfold strncpy. rewrite firstn_all2; [reflexivity|].
  now rewrite list_ascii_length.
Qed.

(** C7, as the code has it: the one group joined at start-up carries the
    eleven bytes of "pgsql_group", padded with NUL bytes to the capacity of
    the name, and a stored length of 11, the [strlen] of the literal. *)
Theorem group_name_joined {cs : corosync_h} (si : startup_input)
    (g : globals) :
  (11 <= CPG_MAX_NAME_LENGTH)%nat ->
  si_init_rc si = CS_OK ->
  joined_groups (trace_of (cpg_main_setup si g))
  = [ {| length := 11;
         value := (list_ascii_of_string "pgsql_group"
                     ++ repeat zero (CPG_MAX_NAME_LENGTH - 11))%list |} ].
Proof.
  intros Hcap Hinit.
  unfold cpg_main_setup, update_ps_display.
  rewrite (strncpy_fits CPG_GROUP_NAME CPG_MAX_NAME_LENGTH) by exact Hcap.
  destruct (si_interval si); run_M;
    cbn -[fmt_d snprintf ps_display_text Z.eqb list_ascii_of_string repeat
          Nat.sub];
    rewrite Hinit, Z.eqb_refl;
    cbn -[fmt_d snprintf ps_display_text Z.eqb list_ascii_of_string repeat
          Nat.sub];
    destruct (si_join_rc si =? CS_OK), (si_join_rc si =? CS_ERR_INVALID_PARAM),
      (si_local_rc si =? CS_OK), (si_fd_rc si =? CS_OK);
    reflexivity.
Qed.

Lemma group_name_joined_witness :
  joined_groups (trace_of (@cpg_main_setup corosync_3 startup_ok globals0))
  = [ {| length := 11;
         value := (list_ascii_of_string "pgsql_group"
                     ++ repeat zero (128 - 11))%list |} ].
Proof.
  refine (@group_name_joined corosync_3 startup_ok globals0 _ _).
  - simpl; lia.
  - reflexivity.
Defined.

(** C7, refuted as stated: the length stored with the group name joined at
    start-up is not 10. *)
Lemma group_name_length_not_10 :
  ~ (map length
       (joined_groups
          (trace_of (@cpg_main_setup corosync_3 startup_ok globals0)))
     = [10]).
Proof. vm_compute. discriminate. Qed.

(** ** The option and the wait *)

(** [emits_tac] for the loop as a whole. *)
Ltac emits_loop :=
  unfold loop_body, after_dispatch, dispatch_step, cpg_dispatch;
  unfold_worker;
  repeat first
    [ progress cbn [model_data cpg_confchg_fn cpg_deliver_fn
                    cpg_totem_confchg_fn]
    | progress unfold_worker
    | progress emits_tac ].

Lemma for_ever_emits (Pe : event -> Prop) (body : iter_input -> M control)
    (inputs : list iter_input) :
  (forall i, emits Pe (body i)) -> emits Pe (for_ever body inputs).
Proof.
  intros Hb. induction inputs as [|i rest IH]; cbn [for_ever].
  - apply emits_ret.
  - apply emits_bind; [apply Hb | intros [|]]; [exact IH | apply emits_ret].
Qed.

Lemma loop_body_no_declaration {cs : corosync_h} (MyProcPid cpg_fd : Z)
    (i : iter_input) :
  emits not_declaration (loop_body MyProcPid cpg_fd i).
Proof. emits_loop. Qed.

Lemma dispatch_step_no_wait {cs : corosync_h} (MyProcPid : Z)
    (i : iter_input) :
  emits not_wait (dispatch_step MyProcPid i).
Proof. emits_loop. Qed.

Lemma role_step_no_wait (i : iter_input) : emits not_wait (role_step i).
Proof. emits_loop. Qed.

Lemma declared_options_app (t u : list event) :
  declared_options (t ++ u) = (declared_options t ++ declared_options u)%list.
Proof.
  induction t as [|e t IH]; [reflexivity|].
  destruct e; simpl; rewrite IH; reflexivity.
Qed.

Lemma no_declarations {A} (m : M A) (g : globals) :
  emits not_declaration m -> declared_options (trace_of (m g)) = [].
Proof.
  intros H. specialize (H g).
  induction H as [|e t He _ IH]; [reflexivity|].
  change (e :: t) with ([e] ++ t)%list.
  rewrite declared_options_app, IH. unfold not_declaration in He.
  now rewrite He.
Qed.

Lemma not_wait_in (t : list event) (wake : list wake_event) (sock timeout : Z) :
  Forall not_wait t -> ~ In (Call_WaitLatchOrSocket wake sock timeout) t.
Proof.
  intros H Hin. rewrite Forall_forall in H.
  specialize (H _ Hin). discriminate.
Qed.

Lemma int_mul_interval (v : Z) :
  1 <= v <= INT_MAX / 1000 ->
  int_mul v 1000 = v * 1000 /\ 0 < v * 1000 <= INT_MAX.
Proof.
  intros H. change (INT_MAX / 1000) with 2147483 in H.
  unfold int_mul, INT_MAX. rewrite to_int32_small; lia.
Qed.

Lemma dispatch_step_keeps_interval {cs : corosync_h} (MyProcPid : Z)
    (i : iter_input) :
  keeps interval (dispatch_step MyProcPid i).
Proof.
  unfold dispatch_step, cpg_dispatch.
  destruct (ii_pending i) as [[c| |]|];
    cbn [model_data cpg_confchg_fn cpg_deliver_fn cpg_totem_confchg_fn];
    unfold_steps; keeps_tac.
Qed.

Lemma role_step_keeps_interval (i : iter_input) : keeps interval (role_step i).
Proof. unfold_steps. keeps_tac. Qed.

Lemma role_step_returns (i : iter_input) (g : globals) :
  result_of (role_step i g) = Ret tt.
Proof.
  rewrite role_step_run. now destruct (Bool.eqb _ _).
Qed.

Lemma wait_step_run (cpg_fd : Z) (i : iter_input) (g : globals) :
  let g' := match ii_reload i with
            | Some v => {| interval := v; in_recovery := in_recovery g;
                           members := members g; MyNodeID := MyNodeID g |}
            | None => g
            end in
  let waited :=
    [Call_HandleMainLoopInterrupts;
     Call_WaitLatchOrSocket
       [WL_LATCH_SET; WL_TIMEOUT; WL_EXIT_ON_PM_DEATH; WL_SOCKET_READABLE]
       cpg_fd (int_mul (interval_at_wait i g) 1000)] in
  wait_step cpg_fd i g =
  match ii_wait i with
  | Woken | Signalled SIGHUP =>
      ((waited ++ [Call_ResetLatch])%list, g', Ret tt)
  | PostmasterDied => (waited, g', Stop HostExit)
  | Signalled SIGTERM =>
      ((waited ++ [Elog LOG "[cpg] …and leaving"])%list, g', Stop (Exit 0))
  end.
Proof.
  unfold wait_step, interval_at_wait, installed_handler, cpg_sigterm. run_M.
  destruct (ii_reload i), (ii_wait i) as [| |[|]]; reflexivity.
Qed.

Lemma cpg_main_setup_declares {cs : corosync_h} (si : startup_input)
    (g : globals) :
  declared_options (trace_of (cpg_main_setup si g)) = [guc_interval]
  /\ (si_interval si = None ->
      interval (globals_of (cpg_main_setup si g)) = 10).
Proof.
  unfold cpg_main_setup, update_ps_display.
  destruct (si_interval si); run_M;
    cbn -[fmt_d snprintf ps_display_text Z.eqb strncpy strlen guc_interval];
    destruct (si_init_rc si =? CS_OK), (si_join_rc si =? CS_OK),
      (si_join_rc si =? CS_ERR_INVALID_PARAM),
      (si_local_rc si =? CS_OK), (si_fd_rc si =? CS_OK);
    (split; [reflexivity | intros; try discriminate; reflexivity]).
Qed.

Lemma loop_body_wait_timeout {cs : corosync_h} (MyProcPid cpg_fd : Z)
    (i : iter_input) (g : globals) (wake : list wake_event)
    (sock timeout : Z) :
  In (Call_WaitLatchOrSocket wake sock timeout)
     (trace_of (loop_body MyProcPid cpg_fd i g)) ->
  timeout = int_mul (interval_at_wait i g) 1000 /\ sock = cpg_fd.
Proof.
  unfold loop_body. intros H.
  apply in_trace_bind in H. destruct H as [H|[[] [_ H]]].
  { exfalso. revert H. apply not_wait_in.
    generalize g. change (emits not_wait
                            (CHECK_FOR_INTERRUPTS (ii_interrupt i))).
    unfold_worker. emits_tac. }
  assert (Hg0 : globals_of (CHECK_FOR_INTERRUPTS (ii_interrupt i) g) = g)
    by (unfold CHECK_FOR_INTERRUPTS; run_M; now destruct (ii_interrupt i)).
  rewrite Hg0 in H. clear Hg0.
  apply in_trace_bind in H. destruct H as [H|[[] [_ H]]].
  { exfalso. revert H. apply not_wait_in, dispatch_step_no_wait. }
  pose proof (dispatch_step_keeps_interval MyProcPid i g) as Hk1.
  set (g1 := globals_of (dispatch_step MyProcPid i g)) in *.
  apply in_trace_bind in H. destruct H as [H|[[] [_ H]]].
  { exfalso. revert H. apply not_wait_in, role_step_no_wait. }
  pose proof (role_step_keeps_interval i g1) as Hk2.
  set (g2 := globals_of (role_step i g1)) in *.
  apply in_trace_bind in H. destruct H as [H|[[] [_ H]]];
    [|destruct H].
  assert (Hi : interval_at_wait i g2 = interval_at_wait i g)
    by (unfold interval_at_wait; destruct (ii_reload i); congruence).
  rewrite wait_step_run in H. cbv zeta in H. rewrite Hi in H.
  destruct (ii_wait i) as [| |[|]]; unfold trace_of in H; cbn in H;
    repeat match goal with
           | H : _ \/ _ |- _ => destruct H
           | H : False |- _ => destruct H
           end;
    try discriminate;
    match goal with
    | H : Call_WaitLatchOrSocket _ _ _ = _ |- _ => injection H as _ <- <-
    end; split; reflexivity.
Qed.

(** C8: [cpg_main] declares one option and no other, the integer
    [cpg.interval] counted in seconds, with boot value 10, minimum 1,
    maximum INT_MAX/1000 and reload context SIGHUP; without a setting the
    interval is 10.  For an interval within these bounds, as set or as
    reloaded in the iteration, every wait of the iteration is given
    interval*1000 as its timeout, a product that [int] holds without
    wrapping, and the wait follows the reload at once. *)
Theorem interval_option_and_timeout {cs : corosync_h} (MyProcPid cpg_fd : Z)
    (si : startup_input) (inputs : list iter_input) (g0 : globals)
    (i : iter_input) (g : globals) :
  1 <= interval_at_wait i g <= INT_MAX / 1000 ->
  declared_options (trace_of (cpg_main MyProcPid si inputs g0))
  = [ {| guc_name := "cpg.interval";
         guc_short_desc :=
           "Defines the maximal interval in seconds between wakeups";
         guc_boot_value := 10;
         guc_min_value := 1;
         guc_max_value := INT_MAX / 1000;
         guc_context := PGC_SIGHUP;
         guc_flags := GUC_UNIT_S |} ]
  /\ (si_interval si = None ->
      interval (globals_of (cpg_main_setup si g0)) = 10)
  /\ (forall wake sock timeout,
        In (Call_WaitLatchOrSocket wake sock timeout)
           (trace_of (loop_body MyProcPid cpg_fd i g)) ->
        timeout = interval_at_wait i g * 1000)
  /\ - 2 ^ 31 <= interval_at_wait i g * 1000 <= INT_MAX
  /\ (exists rest,
        trace_of (wait_step cpg_fd i g)
        = Call_HandleMainLoopInterrupts
            :: Call_WaitLatchOrSocket
                 [WL_LATCH_SET; WL_TIMEOUT; WL_EXIT_ON_PM_DEATH;
                  WL_SOCKET_READABLE]
                 cpg_fd (interval_at_wait i g * 1000)
            :: rest).
Proof.
  intros Hv. destruct (int_mul_interval _ Hv) as [Hmul Hrange].
  destruct (cpg_main_setup_declares si g0) as [Hdecl Hdefault].
  split; [|split; [exact Hdefault|split; [|split]]].
  - unfold cpg_main. rewrite bind_run.
    destruct (result_of (cpg_main_setup si g0)) as [fd|t];
      [|exact Hdecl].
    unfold prepend_trace, trace_of at 1; cbn [fst].
    rewrite declared_options_app, Hdecl, no_declarations; [reflexivity|].
    apply emits_bind.
    + apply for_ever_emits. intros j. apply loop_body_no_declaration.
    + intros [|]; [apply emits_ret|]. unfold_worker. emits_tac.
  - intros wake sock timeout Hin.
    apply loop_body_wait_timeout in Hin. destruct Hin as [-> _].
    exact Hmul.
  - lia.
  - rewrite wait_step_run. cbv zeta. rewrite Hmul.
    destruct (ii_wait i) as [| |[|]]; eexists; reflexivity.
Qed.

Lemma interval_option_and_timeout_witness :
  - 2 ^ 31 <= interval_at_wait idle_iteration standby7 * 1000 <= INT_MAX.
Proof.
  refine (proj1 (proj2 (proj2 (proj2
            (@interval_option_and_timeout corosync_3 123 5 startup_ok []
               globals0 idle_iteration standby7 _))))).
  change (1 <= 10 <= 2147483). lia.
Defined.

(** ** Leaving the loop *)

(** Splits a goal [stops S m] along the structure of [m]. *)
Ltac stops_tac :=
  repeat first
    [ progress cbv beta iota
    | progress cbn [model_data cpg_confchg_fn cpg_deliver_fn
                    cpg_totem_confchg_fn]
    | progress unfold_worker
    | apply stops_ret | apply stops_emit | apply stops_get | apply stops_put
    | apply stops_stop; discriminate
    | apply stops_bind; [|intros]
    | match goal with
      | |- stops _ (match ?x with _ => _ end) => destruct x
      end ].

Lemma cpg_main_setup_not_exit_1 {cs : corosync_h} (si : startup_input) :
  stops not_exit_1 (cpg_main_setup si).
Proof. unfold cpg_main_setup, not_exit_1. stops_tac. Qed.

Lemma loop_body_not_exit_1 {cs : corosync_h} (MyProcPid cpg_fd : Z)
    (i : iter_input) :
  stops not_exit_1 (loop_body MyProcPid cpg_fd i).
Proof.
  unfold loop_body, dispatch_step, cpg_dispatch, not_exit_1. stops_tac.
Qed.

Lemma for_ever_stops_in (S : termination -> Prop)
    (body : iter_input -> M control) (inputs : list iter_input) :
  (forall i, stops S (body i)) -> stops S (for_ever body inputs).
Proof.
  intros Hb. induction inputs as [|i rest IH]; cbn [for_ever].
  - apply stops_ret.
  - apply stops_bind; [apply Hb | intros [|]]; [exact IH | apply stops_ret].
Qed.

Lemma loop_body_returns_next {cs : corosync_h} (MyProcPid cpg_fd : Z)
    (i : iter_input) :
  returns (fun c => c = Next) (loop_body MyProcPid cpg_fd i).
Proof.
  unfold loop_body.
  repeat (eapply returns_bind; [apply returns_any | intros ? _]).
  intros g c H. now injection H.
Qed.

Lemma for_ever_returns_next (body : iter_input -> M control)
    (inputs : list iter_input) :
  (forall i, returns (fun c => c = Next) (body i)) ->
  returns (fun c => c = Next) (for_ever body inputs).
Proof.
  intros Hb. induction inputs as [|i rest IH]; cbn [for_ever].
  - intros g c H. now injection H.
  - eapply returns_bind; [apply Hb | intros c ->]. exact IH.
Qed.

(** C9: the SIGTERM handler logs "[cpg] …and leaving" and exits with status
    0, and so does an iteration whose wait is interrupted by SIGTERM.  The
    statements after the loop log and exit with status 1, but the loop never
    breaks: [cpg_main] runs as if they were not there and never exits with
    status 1. *)
Theorem sigterm_exit_and_fall_through {cs : corosync_h} (MyProcPid cpg_fd : Z)
    (si : startup_input) (inputs : list iter_input) (g0 : globals)
    (i : iter_input) (g : globals) :
  cpg_sigterm g = ([Elog LOG "[cpg] …and leaving"], g, Stop (Exit 0))
  /\ (ii_wait i = Signalled SIGTERM ->
      result_of (wait_step cpg_fd i g) = Stop (Exit 0)
      /\ last (trace_of (wait_step cpg_fd i g)) Call_pfree
         = Elog LOG "[cpg] …and leaving")
  /\ (ii_wait i = Signalled SIGTERM -> ii_interrupt i = false ->
      result_of (dispatch_step MyProcPid i g) = Ret tt ->
      result_of (loop_body MyProcPid cpg_fd i g) = Stop (Exit 0))
  /\ cpg_main_after_loop g
     = ([Elog LOG "[cpg] oops, the event loop broke"], g, Stop (Exit 1))
  /\ result_of (for_ever (loop_body MyProcPid cpg_fd) inputs g) <> Ret Break
  /\ cpg_main MyProcPid si inputs g0
     = cpg_main_without_fall_through MyProcPid si inputs g0
  /\ result_of (cpg_main MyProcPid si inputs g0) <> Stop (Exit 1).
Proof.
  assert (Hnext : forall fd,
            returns (fun c => c = Next)
                    (for_ever (loop_body MyProcPid fd) inputs)).
  { intros fd. apply for_ever_returns_next. intros j.
    apply loop_body_returns_next. }
  assert (Heq : cpg_main MyProcPid si inputs g0
                = cpg_main_without_fall_through MyProcPid si inputs g0).
  { unfold cpg_main, cpg_main_without_fall_through.
    apply bind_returns_ext with (P := fun _ => True);
      [apply returns_any | intros fd g' _].
    apply bind_returns_ext with (P := fun c => c = Next);
      [apply Hnext | intros c g'' ->; reflexivity]. }
  split; [reflexivity|].
  split; [|split; [|split; [reflexivity|split; [|split; [exact Heq|]]]]].
  - intros Hw. rewrite wait_step_run. cbv zeta. rewrite Hw.
    split; reflexivity.
  - intros Hw Hi Hd. rewrite (loop_body_run _ _ _ _ Hi), Hd.
    unfold after_dispatch, prepend_trace, result_of at 1; cbn [snd].
    rewrite bind_run, role_step_returns, bind_run.
    rewrite wait_step_run. cbv zeta. rewrite Hw. reflexivity.
  - intros H. apply Hnext in H. discriminate.
  - rewrite Heq. intros H.
    assert (Hs : stops not_exit_1
                   (cpg_main_without_fall_through MyProcPid si inputs));
      [|exact (Hs g0 (Exit 1) H eq_refl)].
    unfold cpg_main_without_fall_through.
    apply stops_bind; [apply cpg_main_setup_not_exit_1 | intros fd].
    apply stops_bind; [|intros; apply stops_ret].
    apply for_ever_stops_in. intros j. apply loop_body_not_exit_1.
Qed.

(** ** The logged member list *)

Lemma str_app_assoc (a b c : string) : (a ++ b) ++ c = a ++ (b ++ c).
Proof.
  induction a as [|ch a IH]; simpl; [reflexivity | now rewrite IH].
Qed.

Lemma str_app_nil_r (a : string) : a ++ "" = a.
Proof.
  induction a as [|ch a IH]; simpl; [reflexivity | now rewrite IH].
Qed.

Lemma fold_append_data (l : list cpg_address) (acc : StringInfoData) :
  data (fold_left (fun msg a => appendStringInfo msg (member_text a)) l acc)
  = data acc ++ members_text l.
Proof.
  revert acc. induction l as [|a l IH]; intros acc; simpl.
  - now rewrite str_app_nil_r.
  - rewrite IH. unfold appendStringInfo; cbn [data].
    apply str_app_assoc.
Qed.

Lemma sum_up_members_data (l : list cpg_address) :
  data (sum_up_members l) = members_text l.
Proof. unfold sum_up_members. now rewrite fold_append_data. Qed.

Lemma members_text_cons (a : cpg_address) (l : list cpg_address) :
  members_text (a :: l) = ", " ++ String.concat ", " (map pair_text (a :: l)).
Proof.
  revert a. induction l as [|b l IH]; intros a.
  - cbn [members_text fold_right map String.concat].
    unfold member_text, pair_text.
    rewrite str_app_nil_r. reflexivity.
  - change (members_text (a :: b :: l))
      with (member_text a ++ members_text (b :: l)).
    rewrite IH. cbn [map String.concat].
    unfold member_text. fold (pair_text a).
    rewrite !str_app_assoc. reflexivity.
Qed.

Lemma cstring_at_2 (s : string) :
  cstring_at {| data := ", " ++ s |} 2 = Some s.
Proof.
  unfold cstring_at, len. cbn [data].
  change (", " ++ s) with (String "," (String " " s)).
  cbn [String.length Nat.leb Nat.sub substring].
  now rewrite Nat.sub_0_r, substring_0_whole.
Qed.

Lemma fmt_d_nonneg (v : Z) : 0 <= v -> fmt_d v = fmt_u v.
Proof.
  intros H. unfold fmt_d.
  now replace (v <? 0) with false by (symmetry; apply Z.ltb_ge; lia).
Qed.

(** What holds of the member list in the log: the log line of the
    membership callback reads the buffer two bytes in.  For a non-empty view those two bytes are the separator ", " written
    in front of the first entry, the offset lies within the written bytes,
    and the line lists the entries of the view, each as nodeid/pid (both
    printed with [%d], which for values below 2^31 is their decimal value),
    separated by ", ".  For an empty view nothing was written: the offset
    lies beyond the terminator at index 0 and the text logged after the
    counts is not determined by the program. *)
Theorem member_list_log (MyProcPid : Z) (c : confchg) (g : globals) :
  let msg := sum_up_members (member_list c) in
  let line :=
    "[cpg] " ++ fmt_u (Z.of_nat (List.length (joined_list c))) ++ " join, "
      ++ fmt_u (Z.of_nat (List.length (left_list c)))
      ++ " left, procs in group now: " in
  let listed := String.concat ", " (map pair_text (member_list c)) in
  (member_list c <> [] ->
   (2 <= len msg)%nat
   /\ data msg = ", " ++ listed
   /\ cstring_at msg 2 = Some listed
   /\ In (Elog LOG (line ++ listed))
         (trace_of (cs_config_cb MyProcPid c g)))
  /\ (member_list c = [] ->
      len msg = 0%nat
      /\ cstring_at msg 2 = None
      /\ In (Elog_indeterminate LOG line)
            (trace_of (cs_config_cb MyProcPid c g)))
  /\ (forall a, 0 <= nodeid a < 2 ^ 31 -> 0 <= pid a < 2 ^ 31 ->
      pair_text a = fmt_u (nodeid a) ++ "/" ++ fmt_u (pid a)).
Proof.
  intros msg line listed.
  assert (Hin : In (members_log c) (trace_of (cs_config_cb MyProcPid c g))).
  { rewrite cs_config_cb_run. cbv zeta.
    destruct (match left_list c with [] => false | _ => _ end);
      unfold trace_of; cbn [fst]; right; now left. }
  unfold members_log in Hin. fold msg line in Hin.
  split; [|split].
  - intros Hne.
    assert (Hdata : data msg = ", " ++ listed).
    { subst msg listed. rewrite sum_up_members_data.
      destruct (member_list c) as [|a l]; [congruence|].
      apply members_text_cons. }
    assert (Hat : cstring_at msg 2 = Some listed).
    { destruct msg as [d]. cbn [data] in Hdata. subst d.
      apply cstring_at_2. }
    split; [|split; [exact Hdata|split; [exact Hat|]]].
    + unfold len. rewrite Hdata. simpl. lia.
    + now rewrite Hat in Hin.
  - intros Hnil.
    assert (Hat : cstring_at msg 2 = None)
      by (subst msg; rewrite Hnil; reflexivity).
    split; [subst msg; now rewrite Hnil|].
    split; [exact Hat|]. now rewrite Hat in Hin.
  - intros a Hn Hp. unfold pair_text.
    rewrite !to_int32_small, !fmt_d_nonneg by lia. reflexivity.
Qed.

Lemma member_list_log_witness :
  cstring_at (sum_up_members (member_list peer_joins)) 2
  = Some "7/123, 8/456"
  /\ cstring_at (sum_up_members (member_list empty_view)) 2 = None.
Proof.
  split.
  - refine (proj1 (proj2 (proj2
              (proj1 (member_list_log 123 peer_joins standby7) _)))).
    discriminate.
  - refine (proj1 (proj2
              (proj1 (proj2 (member_list_log 123 empty_view standby7)) _))).
    reflexivity.
Defined.

(** * Further properties *)

(** ** The membership callback *)

Lemma members_log_nonempty (c : confchg) :
  member_list c <> [] ->
  members_log c =
  Elog LOG
    (("[cpg] " ++ fmt_u (Z.of_nat (List.length (joined_list c))) ++ " join, "
        ++ fmt_u (Z.of_nat (List.length (left_list c)))
        ++ " left, procs in group now: ")
       ++ String.concat ", " (map pair_text (member_list c))).
Proof.
  intros Hne. unfold members_log.
  assert (Hat : cstring_at (sum_up_members (member_list c)) 2
                = Some (String.concat ", " (map pair_text (member_list c)))).
  { pose proof (sum_up_members_data (member_list c)) as Hd.
    destruct (member_list c) as [|a l]; [congruence|].
    rewrite members_text_cons in Hd.
    destruct (sum_up_members (a :: l)) as [d]. cbn [data] in Hd. subst d.
    apply cstring_at_2. }
  now rewrite Hat.
Qed.

Lemma cs_config_cb_writes_members_only_aux (MyProcPid : Z) (c : confchg)
    (g : globals) :
  interval (globals_of (cs_config_cb MyProcPid c g)) = interval g
  /\ in_recovery (globals_of (cs_config_cb MyProcPid c g)) = in_recovery g
  /\ MyNodeID (globals_of (cs_config_cb MyProcPid c g)) = MyNodeID g.
Proof.
  rewrite cs_config_cb_run. cbv zeta.
  destruct (match left_list c with [] => false | _ => _ end);
    repeat split; reflexivity.
Qed.

(** X1: the membership callback writes [members] and nothing else: the
    interval, the stored role and the node id are as before, whether the
    callback returns or ends the process. *)
Theorem cs_config_cb_writes_members_only (MyProcPid : Z) (c : confchg)
    (g : globals) :
  let g' := globals_of (cs_config_cb MyProcPid c g) in
  interval g' = interval g
  /\ in_recovery g' = in_recovery g
  /\ MyNodeID g' = MyNodeID g.
Proof.
  cbv zeta. rewrite cs_config_cb_run. cbv zeta.
  destruct (match left_list c with [] => false | _ => _ end);
    repeat split; reflexivity.
Qed.

(** X2: every run of the membership callback releases the buffer of the
    member list exactly once, after the log line that reads it, also when
    the callback then ends the process at FATAL. *)
Theorem cs_config_cb_frees_once (MyProcPid : Z) (c : confchg) (g : globals) :
  let t := trace_of (cs_config_cb MyProcPid c g) in
  filter is_pfree t = [Call_pfree]
  /\ exists before after,
       t = (before ++ members_log c :: Call_pfree :: after)%list
       /\ filter is_pfree before = []
       /\ (after = [] \/
           after = [Elog FATAL "[cpg] I left the closed process group!"]).
Proof.
  cbv zeta. rewrite cs_config_cb_run. cbv zeta.
  assert (Hlog : is_pfree (members_log c) = false)
    by (destruct (members_log_cases c) as [[m Hm]|[m Hm]]; now rewrite Hm).
  destruct (match left_list c with [] => false | _ => _ end);
    unfold trace_of; cbn [fst filter is_pfree]; rewrite Hlog;
    (split; [reflexivity|]);
    eexists [_], _; (split; [reflexivity|]); split; auto.
Qed.

(** X3: the first call of the membership callback sets the process title
    to the size of the view it was given, under the stored role:
    "[<n>] Hello!" in recovery and "[<n>] I'm the primary!" otherwise. *)
Theorem cs_config_cb_title (MyProcPid : Z) (c : confchg) (g : globals) :
  Z.of_nat (List.length (member_list c)) < 2 ^ 32 ->
  let n := Z.of_nat (List.length (member_list c)) in
  exists rest,
    trace_of (cs_config_cb MyProcPid c g)
    = Call_set_ps_display
        (if in_recovery g
         then "[" ++ fmt_u n ++ "] Hello!"
         else "[" ++ fmt_u n ++ "] I'm the primary!") :: rest.
Proof.
  intros Hn n. rewrite cs_config_cb_run. cbv zeta. cbn [members].
  assert (Hm : to_uint32 (Z.of_nat (List.length (member_list c))) = n)
    by (unfold to_uint32; apply Z.mod_small; lia).
  rewrite Hm.
  assert (Ht : snprintf 128 (ps_display_text (in_recovery g) n)
               = if in_recovery g
                 then "[" ++ fmt_u n ++ "] Hello!"
                 else "[" ++ fmt_u n ++ "] I'm the primary!").
  { unfold snprintf.
    pose proof (ps_display_text_length (in_recovery g) n ltac:(lia)) as Hl.
    rewrite substring_0_fits by (simpl; lia).
    unfold ps_display_text. now destruct (in_recovery g). }
  rewrite Ht.
  destruct (match left_list c with [] => false | _ => _ end);
    eexists; reflexivity.
Qed.

Lemma cs_config_cb_title_witness :
  exists rest,
    trace_of (cs_config_cb 123 peer_joins standby7)
    = Call_set_ps_display "[2] Hello!" :: rest.
Proof.
  refine (cs_config_cb_title 123 peer_joins standby7 _).
  simpl; lia.
Defined.

Lemma pair_text_high (a : cpg_address) :
  2 ^ 31 <= nodeid a < 2 ^ 32 -> 0 <= pid a < 2 ^ 31 ->
  pair_text a = "-" ++ fmt_u (2 ^ 32 - nodeid a) ++ "/" ++ fmt_u (pid a).
Proof.
  intros Hn Hp. unfold pair_text.
  rewrite to_int32_large, to_int32_small by lia.
  rewrite (fmt_d_nonneg (pid a)) by lia.
  unfold fmt_d.
  replace (nodeid a - 2 ^ 32 <? 0) with true
    by (symmetry; apply Z.ltb_lt; lia).
  replace (- (nodeid a - 2 ^ 32)) with (2 ^ 32 - nodeid a) by lia.
  now rewrite str_app_assoc.
Qed.

(** X4: a node id of 2^31 or more is logged as a negative number.  When
    the first member of the view has such a node id, the member list of the
    log line starts with "-", the decimal of 2^32 - nodeid, "/" and the
    pid. *)
Theorem high_nodeid_logged_negative (MyProcPid : Z) (c : confchg)
    (g : globals) (a : cpg_address) (l : list cpg_address) :
  member_list c = a :: l ->
  2 ^ 31 <= nodeid a < 2 ^ 32 -> 0 <= pid a < 2 ^ 31 ->
  exists tail,
    In (Elog LOG
          (("[cpg] " ++ fmt_u (Z.of_nat (List.length (joined_list c)))
              ++ " join, " ++ fmt_u (Z.of_nat (List.length (left_list c)))
              ++ " left, procs in group now: ")
             ++ ("-" ++ fmt_u (2 ^ 32 - nodeid a) ++ "/" ++ fmt_u (pid a))
             ++ tail))
       (trace_of (cs_config_cb MyProcPid c g)).
Proof.
  intros Hc Hn Hp.
  assert (Hin : In (members_log c) (trace_of (cs_config_cb MyProcPid c g))).
  { rewrite cs_config_cb_run. cbv zeta.
    destruct (match left_list c with [] => false | _ => _ end);
      unfold trace_of; cbn [fst]; right; now left. }
  rewrite members_log_nonempty in Hin by (rewrite Hc; discriminate).
  rewrite Hc in Hin. cbn [map] in Hin.
  rewrite (pair_text_high a Hn Hp) in Hin.
  destruct l as [|b l].
  - exists "". cbn [map String.concat] in Hin.
    now rewrite str_app_nil_r.
  - exists (", " ++ String.concat ", " (map pair_text (b :: l))).
    cbn [map String.concat] in Hin. exact Hin.
Qed.

Lemma high_nodeid_logged_negative_witness :
  exists tail,
    In (Elog LOG ("[cpg] 1 join, 0 left, procs in group now: -1062731510/456"
                    ++ tail))
       (trace_of (cs_config_cb 123 high_joins standby7)).
Proof.
  refine (high_nodeid_logged_negative 123 high_joins standby7 node_high
            [node7] eq_refl _ _).
  - simpl; lia.
  - simpl; lia.
Defined.

(** ** How an iteration ends *)

Lemma cs_config_cb_result (MyProcPid : Z) (c : confchg) (g : globals) :
  result_of (cs_config_cb MyProcPid c g) = Ret tt
  \/ result_of (cs_config_cb MyProcPid c g) = Stop FatalExit.
Proof.
  rewrite cs_config_cb_run. cbv zeta.
  destruct (match left_list c with [] => false | _ => _ end);
    [right | left]; reflexivity.
Qed.

Lemma cpg_dispatch_run (MyProcPid : Z) (f : cs_dispatch_flags_t)
    (pending : option cpg_event) (rc : Z) (g : globals) :
  cpg_dispatch (model_data MyProcPid) f pending rc g =
  match pending with
  | Some (EvConfchg c) =>
      (Call_cpg_dispatch f :: trace_of (cs_config_cb MyProcPid c g),
       globals_of (cs_config_cb MyProcPid c g),
       match result_of (cs_config_cb MyProcPid c g) with
       | Ret _ => Ret rc
       | Stop t => Stop t
       end)
  | _ => ([Call_cpg_dispatch f], g, Ret rc)
  end.
Proof.
  unfold cpg_dispatch.
  destruct pending as [[c| |]|];
    cbn [model_data cpg_confchg_fn cpg_deliver_fn cpg_totem_confchg_fn];
    try reflexivity.
  run_M. cbn -[cs_config_cb].
  destruct (cs_config_cb MyProcPid c g) as [[t g1] [[]|s]]; cbn;
    [now rewrite app_nil_r | reflexivity].
Qed.

Lemma loop_body_interrupted {cs : corosync_h} (MyProcPid cpg_fd : Z)
    (i : iter_input) (g : globals) :
  ii_interrupt i = true ->
  loop_body MyProcPid cpg_fd i g
  = ([Call_CHECK_FOR_INTERRUPTS], g, Stop HostExit).
Proof. intros Hi. unfold loop_body. rewrite Hi. reflexivity. Qed.

Lemma after_dispatch_result (cpg_fd : Z) (i : iter_input) (g : globals) :
  result_of (after_dispatch cpg_fd i g) =
  match ii_wait i with
  | Woken | Signalled SIGHUP => Ret Next
  | PostmasterDied => Stop HostExit
  | Signalled SIGTERM => Stop (Exit 0)
  end.
Proof.
  unfold after_dispatch. rewrite bind_run, role_step_returns.
  unfold prepend_trace, result_of at 1; cbn [snd].
  rewrite bind_run, wait_step_run. cbv zeta.
  destruct (ii_wait i) as [| |[|]]; reflexivity.
Qed.

Lemma dispatch_step_result {cs : corosync_h} (MyProcPid : Z) (i : iter_input)
    (g : globals) (t : termination) :
  result_of (dispatch_step MyProcPid i g) = Stop t ->
  t = FatalExit
  /\ ((exists c, ii_pending i = Some (EvConfchg c)
                 /\ result_of (cs_config_cb MyProcPid c g) = Stop FatalExit)
      \/ (ii_dispatch_rc i <> CS_OK
          /\ ii_dispatch_rc i <> CS_ERR_TRY_AGAIN)).
Proof.
  rewrite dispatch_step_run. cbv zeta. rewrite cpg_dispatch_run.
  assert (Hrc : forall tr g1,
            result_of
              (if ii_dispatch_rc i =? CS_OK
               then ((tr ++ [Elog DEBUG1 "[cpg] dispatched one event"])%list,
                     g1, Ret tt)
               else if ii_dispatch_rc i =? CS_ERR_TRY_AGAIN
               then (tr, g1, Ret tt)
               else ((tr ++ [Elog FATAL
                               ("[cpg] dispatching callback failed: "
                                  ++ fmt_d (ii_dispatch_rc i))])%list,
                     g1, @Stop unit FatalExit)) = Stop t ->
            t = FatalExit
            /\ ii_dispatch_rc i <> CS_OK
            /\ ii_dispatch_rc i <> CS_ERR_TRY_AGAIN).
  { intros tr g1.
    destruct (Z.eqb_spec (ii_dispatch_rc i) CS_OK);
      [discriminate|].
    destruct (Z.eqb_spec (ii_dispatch_rc i) CS_ERR_TRY_AGAIN);
      [discriminate|].
    intros H; injection H as <-. auto. }
  destruct (ii_pending i) as [[c| |]|];
    unfold result_of at 1, trace_of, globals_of; cbn [fst snd];
    try (intros H; apply Hrc in H; destruct H as [-> H]; now auto).
  destruct (cs_config_cb_result MyProcPid c g) as [Hr|Hr];
    fold (result_of (cs_config_cb MyProcPid c g)); rewrite Hr.
  - intros H; apply Hrc in H; destruct H as [-> H]; now auto.
  - unfold result_of at 1; cbn [snd]. intros H; injection H as <-.
    split; [reflexivity|]. left. now exists c.
Qed.

(** The three ways in which an iteration ends the process itself, SIGTERM
    arriving, if it does, during the wait. *)
Lemma loop_body_stops {cs : corosync_h} (MyProcPid cpg_fd : Z)
    (i : iter_input) (g : globals) (t : termination) :
  result_of (loop_body MyProcPid cpg_fd i g) = Stop t ->
  match t with
  | Exit status => status = 0 /\ ii_wait i = Signalled SIGTERM
  | HostExit => ii_interrupt i = true \/ ii_wait i = PostmasterDied
  | FatalExit =>
      ii_interrupt i = false
      /\ ((exists c, ii_pending i = Some (EvConfchg c)
                     /\ result_of (cs_config_cb MyProcPid c g)
                        = Stop FatalExit)
          \/ (ii_dispatch_rc i <> CS_OK
              /\ ii_dispatch_rc i <> CS_ERR_TRY_AGAIN))
  end.
Proof.
  destruct (ii_interrupt i) eqn:Hi.
  - rewrite (loop_body_interrupted _ _ _ _ Hi).
    intros H; injection H as <-. now left.
  - rewrite (loop_body_run _ _ _ _ Hi).
    destruct (result_of (dispatch_step MyProcPid i g)) as [[]|s] eqn:Hd.
    + unfold prepend_trace, result_of at 1; cbn [snd].
      rewrite after_dispatch_result.
      destruct (ii_wait i) as [| |[|]]; intros H;
        try discriminate; injection H as <-; auto.
    + unfold result_of at 1; cbn [snd]. intros H; injection H as <-.
      destruct (dispatch_step_result _ _ _ _ Hd) as [-> Hc].
      split; [reflexivity | exact Hc].
Qed.

(** ** Opening the session, as a whole *)

Lemma cpg_main_setup_outcome {cs : corosync_h} (si : startup_input)
    (g : globals) :
  let ok rc := rc =? CS_OK in
  result_of (cpg_main_setup si g)
  = (if ok (si_init_rc si) && ok (si_join_rc si) && ok (si_local_rc si)
        && ok (si_fd_rc si)
     then Ret (si_fd si) else Stop FatalExit)
  /\ corosync_calls (trace_of (cpg_main_setup si g))
     = (Call_cpg_model_initialize
          :: if ok (si_init_rc si)
             then Call_cpg_join pgsql_group
                    :: (if ok (si_join_rc si)
                        then Call_cpg_local_get
                               :: (if ok (si_local_rc si)
                                   then [Call_cpg_fd_get] else [])
                        else [])
             else [])
  /\ (ok (si_init_rc si) && ok (si_join_rc si) && ok (si_local_rc si)
        && ok (si_fd_rc si) = true ->
      globals_of (cpg_main_setup si g) = globals_after_setup si g).
Proof.
  cbv zeta.
  unfold cpg_main_setup, update_ps_display, globals_after_setup, pgsql_group.
  destruct (si_interval si); run_M;
    cbn -[fmt_d snprintf ps_display_text Z.eqb strncpy strlen];
    destruct (si_init_rc si =? CS_OK), (si_join_rc si =? CS_OK),
      (si_join_rc si =? CS_ERR_INVALID_PARAM),
      (si_local_rc si =? CS_OK), (si_fd_rc si =? CS_OK);
    (split; [reflexivity | split; [reflexivity|]]);
    intros; try discriminate; reflexivity.
Qed.

Lemma all_ok_true {cs : corosync_h} (si : startup_input) :
  (si_init_rc si =? CS_OK) && (si_join_rc si =? CS_OK)
    && (si_local_rc si =? CS_OK) && (si_fd_rc si =? CS_OK) = true
  <-> (si_init_rc si = CS_OK /\ si_join_rc si = CS_OK
       /\ si_local_rc si = CS_OK /\ si_fd_rc si = CS_OK).
Proof.
  rewrite !andb_true_iff, !Z.eqb_eq. tauto.
Qed.

(** X6: the event loop is entered exactly when [cpg_model_initialize],
    [cpg_join], [cpg_local_get] and [cpg_fd_get] all return CS_OK.  Then the
    set-up returns the descriptor [cpg_fd_get] stored and leaves the interval
    at the configured value (10 without one), the stored role at the role
    sampled, the node id at the one [cpg_local_get] stored, and [members]
    untouched, and the loop runs on from there.  Otherwise the process ends
    at FATAL inside the set-up and [cpg_main] does nothing beyond it,
    whatever the loop would have met. *)
Theorem cpg_main_enters_loop {cs : corosync_h} (MyProcPid : Z)
    (si : startup_input) (inputs : list iter_input) (g : globals) :
  let setup := cpg_main_setup si g in
  let all_ok :=
    si_init_rc si = CS_OK /\ si_join_rc si = CS_OK
    /\ si_local_rc si = CS_OK /\ si_fd_rc si = CS_OK in
  (all_ok ->
   result_of setup = Ret (si_fd si)
   /\ globals_of setup = globals_after_setup si g
   /\ cpg_main MyProcPid si inputs g
      = prepend_trace (trace_of setup)
          ((for_ever (loop_body MyProcPid (si_fd si)) inputs ;; ret tt)
             (globals_after_setup si g)))
  /\ (~ all_ok ->
      result_of setup = Stop FatalExit
      /\ cpg_main MyProcPid si inputs g
         = (trace_of setup, globals_of setup, Stop FatalExit)).
Proof.
  intros setup all_ok.
  destruct (cpg_main_setup_outcome si g) as [Hres [_ Hglob]].
  cbv zeta in Hres, Hglob. fold setup in Hres, Hglob.
  assert (Hmain : cpg_main MyProcPid si inputs g
                  = cpg_main_without_fall_through MyProcPid si inputs g).
  { unfold cpg_main, cpg_main_without_fall_through.
    apply bind_returns_ext with (P := fun _ => True);
      [apply returns_any | intros fd g' _].
    apply bind_returns_ext with (P := fun c => c = Next);
      [|intros c g'' ->; reflexivity].
    apply for_ever_returns_next. intros j. apply loop_body_returns_next. }
  split.
  - intros Hok. apply all_ok_true in Hok. rewrite Hok in Hres.
    specialize (Hglob Hok).
    split; [exact Hres | split; [exact Hglob|]].
    rewrite Hmain. unfold cpg_main_without_fall_through.
    rewrite bind_run. fold setup. now rewrite Hres, Hglob.
  - intros Hno.
    assert (Hb : (si_init_rc si =? CS_OK) && (si_join_rc si =? CS_OK)
                   && (si_local_rc si =? CS_OK) && (si_fd_rc si =? CS_OK)
                 = false).
    { apply not_true_is_false. intros H. apply Hno. now apply all_ok_true. }
    rewrite Hb in Hres. split; [exact Hres|].
    unfold cpg_main. rewrite bind_run. fold setup. now rewrite Hres.
Qed.

Lemma cpg_main_enters_loop_witness :
  result_of (@cpg_main_setup corosync_3 startup_ok globals0) = Ret 5
  /\ result_of (@cpg_main_setup corosync_3 startup_already_joined globals0)
     = Stop FatalExit.
Proof.
  split.
  - refine (proj1 (proj1 (@cpg_main_enters_loop corosync_3 123 startup_ok []
                            globals0) _)).
    repeat split.
  - refine (proj1 (proj2 (@cpg_main_enters_loop corosync_3 123
                            startup_already_joined [] globals0) _)).
    intros [_ [H _]]. discriminate.
Defined.

(** X7: the set-up stops calling corosync at the first call that fails: it
    always calls [cpg_model_initialize]; it calls [cpg_join], with the group
    name, only after that returned CS_OK, [cpg_local_get] only after the
    join returned CS_OK, and [cpg_fd_get] only after the node id was
    fetched with CS_OK; and it never dispatches. *)
Theorem cpg_main_setup_fail_fast {cs : corosync_h} (si : startup_input)
    (g : globals) :
  corosync_calls (trace_of (cpg_main_setup si g))
  = Call_cpg_model_initialize
      :: if si_init_rc si =? CS_OK
         then Call_cpg_join pgsql_group
                :: (if si_join_rc si =? CS_OK
                    then Call_cpg_local_get
                           :: (if si_local_rc si =? CS_OK
                               then [Call_cpg_fd_get] else [])
                    else [])
         else [].
Proof.
  destruct (cpg_main_setup_outcome si g) as [_ [Hcalls _]]. exact Hcalls.
Qed.

Lemma cpg_main_after_setup {cs : corosync_h} (MyProcPid : Z)
    (si : startup_input) (inputs : list iter_input) (g : globals) (fd : Z) :
  result_of (cpg_main_setup si g) = Ret fd ->
  cpg_main MyProcPid si inputs g
  = prepend_trace (trace_of (cpg_main_setup si g))
      ((for_ever (loop_body MyProcPid fd) inputs ;; ret tt)
         (globals_of (cpg_main_setup si g))).
Proof.
  intros Hres.
  assert (Hmain : cpg_main MyProcPid si inputs g
                  = cpg_main_without_fall_through MyProcPid si inputs g).
  { unfold cpg_main, cpg_main_without_fall_through.
    apply bind_returns_ext with (P := fun _ => True);
      [apply returns_any | intros fd' g' _].
    apply bind_returns_ext with (P := fun c => c = Next);
      [|intros c g'' ->; reflexivity].
    apply for_ever_returns_next. intros j. apply loop_body_returns_next. }
  rewrite Hmain. unfold cpg_main_without_fall_through.
  rewrite bind_run. now rewrite Hres.
Qed.

(** ** The node id *)

Lemma loop_body_keeps_node_id {cs : corosync_h} (MyProcPid cpg_fd : Z)
    (i : iter_input) :
  keeps MyNodeID (loop_body MyProcPid cpg_fd i).
Proof.
  unfold loop_body, dispatch_step, cpg_dispatch.
  destruct (ii_pending i) as [[c| |]|];
    cbn [model_data cpg_confchg_fn cpg_deliver_fn cpg_totem_confchg_fn];
    unfold_steps; keeps_tac.
Qed.

(** X8: the node id does not change once the session is open: no iteration
    of the loop and no membership callback writes [MyNodeID], so after any
    number of iterations of a run whose set-up succeeded it is still the
    node id that [cpg_local_get] stored. *)
Theorem node_id_fixed {cs : corosync_h} (MyProcPid : Z) (si : startup_input)
    (inputs : list iter_input) (g0 : globals) :
  si_init_rc si = CS_OK -> si_join_rc si = CS_OK ->
  si_local_rc si = CS_OK -> si_fd_rc si = CS_OK ->
  MyNodeID (globals_of (cpg_main MyProcPid si inputs g0)) = si_nodeid si
  /\ forall cpg_fd g,
       MyNodeID (globals_of (for_ever (loop_body MyProcPid cpg_fd) inputs g))
       = MyNodeID g.
Proof.
  intros H1 H2 H3 H4.
  assert (Hloop : forall cpg_fd,
            keeps MyNodeID (for_ever (loop_body MyProcPid cpg_fd) inputs)).
  { intros cpg_fd. apply for_ever_keeps. intros i _.
    apply loop_body_keeps_node_id. }
  split; [|intros cpg_fd g; apply Hloop].
  destruct (cpg_main_setup_outcome si g0) as [Hres [_ Hglob]].
  cbv zeta in Hres, Hglob.
  assert (Hok : (si_init_rc si =? CS_OK) && (si_join_rc si =? CS_OK)
                  && (si_local_rc si =? CS_OK) && (si_fd_rc si =? CS_OK)
                = true) by (apply all_ok_true; auto).
  rewrite Hok in Hres. specialize (Hglob Hok).
  rewrite (cpg_main_after_setup MyProcPid si inputs g0 _ Hres), Hglob.
  unfold prepend_trace, globals_of at 1; cbn [fst snd].
  assert (Hk : keeps MyNodeID
                 (for_ever (loop_body MyProcPid (si_fd si)) inputs ;; ret tt))
    by (apply keeps_bind; [apply Hloop | intros; apply keeps_ret]).
  now rewrite Hk.
Qed.

Lemma node_id_fixed_witness :
  MyNodeID
    (globals_of (@cpg_main corosync_3 123 startup_ok
                   [busy_iteration; idle_iteration] globals0)) = 7.
Proof.
  refine (proj1 (@node_id_fixed corosync_3 123 startup_ok
                   [busy_iteration; idle_iteration] globals0 _ _ _ _));
    reflexivity.
Defined.

(** ** The process title *)

Lemma title_after_app (cur : option string) (t u : list event) :
  title_after cur (t ++ u) = title_after (title_after cur t) u.
Proof. unfold title_after. apply fold_left_app. Qed.

Lemma fresh_bind {A B} (m : M A) (k : A -> M B) :
  fresh m -> (forall a, fresh (k a)) -> fresh (bind m k).
Proof.
  intros Hm Hk g cur Hc. specialize (Hm g cur Hc).
  unfold shows in *. rewrite bind_run.
  destruct (result_of (m g)) as [a|t]; [|exact Hm].
  unfold prepend_trace, trace_of at 1, globals_of at 1; cbn [fst snd].
  rewrite title_after_app, Hm. now apply Hk.
Qed.

Lemma refreshes_bind {A B} (m : M A) (k : A -> M B) :
  refreshes m -> (forall a, fresh (k a)) -> refreshes (bind m k).
Proof.
  intros Hm Hk g cur. specialize (Hm g cur).
  unfold shows in *. rewrite bind_run.
  destruct (result_of (m g)) as [a|t]; [|exact Hm].
  unfold prepend_trace, trace_of at 1, globals_of at 1; cbn [fst snd].
  rewrite title_after_app, Hm. now apply Hk.
Qed.

Lemma nostop_refreshes {A B} (m : M A) (k : A -> M B) :
  nostop m -> (forall a, refreshes (k a)) -> refreshes (bind m k).
Proof.
  intros Hm Hk g cur. destruct (Hm g) as [a Ha].
  unfold shows. rewrite bind_run, Ha.
  unfold prepend_trace, trace_of at 1, globals_of at 1; cbn [fst snd].
  rewrite title_after_app. apply Hk.
Qed.

Lemma refreshes_fresh {A} (m : M A) : refreshes m -> fresh m.
Proof. intros H g cur _. apply H. Qed.

Lemma refreshes_update : refreshes update_ps_display.
Proof. intros g cur. reflexivity. Qed.

Ltac unfold_calls :=
  unfold cs_config_cb, role_step, wait_step, installed_handler, cpg_sigterm,
    cpg_main_after_loop, elog_s, elog, exit, RecoveryInProgress,
    CHECK_FOR_INTERRUPTS, HandleMainLoopInterrupts, DefineCustomIntVariable,
    WaitLatchOrSocket.

Ltac nostop_leaf :=
  solve [ intro; eexists; reflexivity
        | intro; unfold_calls;
          match goal with
          | |- context [match ?x with _ => _ end] => destruct x
          end; eexists; reflexivity ].

(** Splits a goal [fresh m] along the structure of [m]; a write to the
    globals the title shows must be followed by [update_ps_display]. *)
Ltac fresh_tac :=
  repeat first
    [ progress cbv beta iota zeta
    | progress cbn [model_data cpg_confchg_fn cpg_deliver_fn
                    cpg_totem_confchg_fn]
    | progress unfold_calls
    | match goal with
      | |- fresh (bind (set_members _) _) =>
          apply refreshes_fresh, nostop_refreshes; [nostop_leaf | intros];
          first [ apply refreshes_update
                | apply refreshes_bind; [apply refreshes_update | intros] ]
      | |- fresh (bind (set_in_recovery _) _) =>
          apply refreshes_fresh, nostop_refreshes; [nostop_leaf | intros];
          first [ apply refreshes_update
                | apply refreshes_bind; [apply refreshes_update | intros] ]
      end
    | match goal with
      | |- fresh (bind _ _) => apply fresh_bind; [|intros]
      | |- fresh (match ?x with _ => _ end) => destruct x
      | |- fresh _ => solve [intros ? ? ?; subst; reflexivity]
      end ].

Lemma loop_body_fresh {cs : corosync_h} (MyProcPid cpg_fd : Z)
    (i : iter_input) :
  fresh (loop_body MyProcPid cpg_fd i).
Proof.
  unfold loop_body, dispatch_step, cpg_dispatch. unfold_calls. fresh_tac.
Qed.

Lemma for_ever_fresh (body : iter_input -> M control)
    (inputs : list iter_input) :
  (forall i, fresh (body i)) -> fresh (for_ever body inputs).
Proof.
  intros Hb. induction inputs as [|i rest IH]; cbn [for_ever].
  - intros g cur ->. reflexivity.
  - apply fresh_bind; [apply Hb | intros [|]]; [exact IH|].
    intros g cur ->. reflexivity.
Qed.

Lemma cpg_main_setup_refreshes {cs : corosync_h} (si : startup_input) :
  refreshes (cpg_main_setup si).
Proof.
  unfold cpg_main_setup.
  repeat lazymatch goal with
         | |- refreshes (bind update_ps_display _) => fail
         | |- _ => apply nostop_refreshes; [nostop_leaf | intros]
         end.
  apply refreshes_bind; [apply refreshes_update | intros].
  unfold_calls. fresh_tac.
Qed.

(** X9: the process title follows the globals.  In a run of [cpg_main]
    that SIGTERM does not cut short outside a wait (there the handler exits
    where the worker stands, possibly between a write and the refresh that
    follows it), however the run goes and wherever it ends, at FATAL, inside
    the host, on SIGTERM during a wait, or still looping, the last title it
    set is the one its final member count and stored role call for; and an
    iteration of such a run that starts with the title in step with the
    globals leaves it in step, whether it completes or ends the process. *)
Theorem title_never_stale {cs : corosync_h} (MyProcPid cpg_fd : Z)
    (si : startup_input) (inputs : list iter_input) (g0 : globals)
    (cur : option string) (i : iter_input) (g : globals) :
  (let out := cpg_main MyProcPid si inputs g0 in
   title_after cur (trace_of out)
   = Some (snprintf 128
             (ps_display_text (in_recovery (globals_of out))
                (members (globals_of out)))))
  /\ (let out := loop_body MyProcPid cpg_fd i g in
      title_after
        (Some (snprintf 128 (ps_display_text (in_recovery g) (members g))))
        (trace_of out)
      = Some (snprintf 128
                (ps_display_text (in_recovery (globals_of out))
                   (members (globals_of out))))).
Proof.
  split.
  - assert (H : refreshes (cpg_main MyProcPid si inputs));
      [|specialize (H g0 cur); unfold shows, status_text in H; exact H].
    unfold cpg_main.
    apply refreshes_bind; [apply cpg_main_setup_refreshes | intros fd].
    apply fresh_bind.
    + apply for_ever_fresh. intros j. apply loop_body_fresh.
    + intros [|]; [intros g1 c ->; reflexivity|].
      unfold_calls. fresh_tac.
  - pose proof (loop_body_fresh MyProcPid cpg_fd i g (Some (status_text g))
                  eq_refl) as H.
    unfold shows, status_text in H. exact H.
Qed.

(** ** Every wait of a run *)

Lemma guarded_bind {A B} (I : globals -> Prop) (Pe : event -> Prop)
    (m : M A) (k : A -> M B) :
  guarded I Pe m -> (forall a, guarded I Pe (k a)) ->
  guarded I Pe (bind m k).
Proof.
  intros Hm Hk g Hg. destruct (Hm g Hg) as [Ht Hi]. rewrite bind_run.
  destruct (result_of (m g)) as [a|t]; [|split; assumption].
  destruct (Hk a _ Hi) as [Ht2 Hi2].
  unfold prepend_trace, trace_of at 1, globals_of at 1; cbn [fst snd].
  split; [apply Forall_app; split; assumption | exact Hi2].
Qed.

Lemma guarded_quiet {A} (fd : Z) (m : M A) :
  emits not_wait m -> keeps interval m ->
  guarded (fun g => interval_ok (interval g)) (wait_ok fd) m.
Proof.
  intros He Hk g Hg. split.
  - eapply Forall_impl; [|apply He].
    intros e Hne. destruct e; try exact I. discriminate.
  - now rewrite Hk.
Qed.

Lemma wait_step_guarded (cpg_fd : Z) (i : iter_input) :
  (forall v, ii_reload i = Some v -> interval_ok v) ->
  guarded (fun g => interval_ok (interval g)) (wait_ok cpg_fd)
          (wait_step cpg_fd i).
Proof.
  intros Hr g Hg.
  assert (Hv : interval_ok (interval_at_wait i g)).
  { unfold interval_at_wait. destruct (ii_reload i) as [v|]; auto. }
  destruct (int_mul_interval _ Hv) as [Hmul Hrange].
  assert (Hw : wait_ok cpg_fd
                 (Call_WaitLatchOrSocket
                    [WL_LATCH_SET; WL_TIMEOUT; WL_EXIT_ON_PM_DEATH;
                     WL_SOCKET_READABLE]
                    cpg_fd (int_mul (interval_at_wait i g) 1000))).
  { rewrite Hmul. unfold interval_ok in Hv. cbn [wait_ok].
    repeat split; try lia. apply Z.mod_mul. lia. }
  rewrite wait_step_run. cbv zeta.
  assert (Hg' : interval_ok
                  (interval
                     match ii_reload i with
                     | Some v =>
                         {| interval := v; in_recovery := in_recovery g;
                            members := members g; MyNodeID := MyNodeID g |}
                     | None => g
                     end)).
  { destruct (ii_reload i) as [v|]; [apply Hr; reflexivity | exact Hg]. }
  destruct (ii_wait i) as [| |[|]];
    unfold trace_of, globals_of; cbn [fst snd app];
    (split; [|exact Hg']);
    repeat (constructor; try exact I; try exact Hw).
Qed.

Lemma loop_body_guarded {cs : corosync_h} (MyProcPid cpg_fd : Z)
    (i : iter_input) :
  (forall v, ii_reload i = Some v -> interval_ok v) ->
  guarded (fun g => interval_ok (interval g)) (wait_ok cpg_fd)
          (loop_body MyProcPid cpg_fd i).
Proof.
  intros Hr. unfold loop_body.
  apply guarded_bind; [|intros].
  { apply guarded_quiet; [unfold_worker; emits_tac | unfold_steps; keeps_tac]. }
  apply guarded_bind; [|intros].
  { apply guarded_quiet;
      [apply dispatch_step_no_wait | apply dispatch_step_keeps_interval]. }
  apply guarded_bind; [|intros].
  { apply guarded_quiet;
      [apply role_step_no_wait | apply role_step_keeps_interval]. }
  apply guarded_bind; [now apply wait_step_guarded | intros].
  intros g Hg. split; [constructor | exact Hg].
Qed.

Lemma for_ever_guarded (I : globals -> Prop) (Pe : event -> Prop)
    (body : iter_input -> M control) (inputs : list iter_input) :
  (forall i, In i inputs -> guarded I Pe (body i)) ->
  guarded I Pe (for_ever body inputs).
Proof.
  induction inputs as [|i rest IH]; intros Hb; cbn [for_ever].
  - intros g Hg. split; [constructor | exact Hg].
  - apply guarded_bind; [apply Hb; now left | intros [|]].
    + apply IH. intros j Hj. apply Hb. now right.
    + intros g Hg. split; [constructor | exact Hg].
Qed.

Lemma cpg_main_setup_no_wait {cs : corosync_h} (si : startup_input) :
  emits not_wait (cpg_main_setup si).
Proof. unfold cpg_main_setup. unfold_worker. emits_tac. Qed.

(** X10: no wait of a run overflows or watches the wrong descriptor.  When
    the GUC machinery hands over only intervals between 1 and INT_MAX/1000,
    at start-up and at every reload, each call of [WaitLatchOrSocket] in a
    run of [cpg_main], however long, is on the descriptor [cpg_fd_get]
    stored, for the latch, the timeout, the readable socket and the death of
    the postmaster, with a timeout that is a whole number of seconds in
    milliseconds, at least 1000 and at most INT_MAX. *)
Theorem waits_are_safe {cs : corosync_h} (MyProcPid : Z)
    (si : startup_input) (inputs : list iter_input) (g0 : globals) :
  (forall v, si_interval si = Some v -> 1 <= v <= INT_MAX / 1000) ->
  (forall i v, In i inputs -> ii_reload i = Some v ->
               1 <= v <= INT_MAX / 1000) ->
  forall wake sock timeout,
    In (Call_WaitLatchOrSocket wake sock timeout)
       (trace_of (cpg_main MyProcPid si inputs g0)) ->
    wake = [WL_LATCH_SET; WL_TIMEOUT; WL_EXIT_ON_PM_DEATH;
            WL_SOCKET_READABLE]
    /\ sock = si_fd si
    /\ 1000 <= timeout <= INT_MAX
    /\ timeout mod 1000 = 0.
Proof.
  intros Hconf Hreload.
  assert (Hall : Forall (wait_ok (si_fd si))
                   (trace_of (cpg_main MyProcPid si inputs g0))).
  { assert (Hsetup : Forall (wait_ok (si_fd si))
                       (trace_of (cpg_main_setup si g0))).
    { eapply Forall_impl; [|apply cpg_main_setup_no_wait].
      intros e Hne. destruct e; try exact I. discriminate. }
    destruct (cpg_main_setup_outcome si g0) as [Hres [_ Hglob]].
    cbv zeta in Hres, Hglob.
    destruct ((si_init_rc si =? CS_OK) && (si_join_rc si =? CS_OK)
              && (si_local_rc si =? CS_OK) && (si_fd_rc si =? CS_OK)).
    - rewrite (cpg_main_after_setup MyProcPid si inputs g0 _ Hres).
      rewrite (Hglob eq_refl).
      unfold prepend_trace, trace_of at 1; cbn [fst].
      apply Forall_app. split; [exact Hsetup|].
      refine (proj1 (guarded_bind (fun g => interval_ok (interval g))
                       (wait_ok (si_fd si)) _ _ _ _ _ _)).
      + apply for_ever_guarded. intros i Hi. apply loop_body_guarded.
        intros v Hv. exact (Hreload i v Hi Hv).
      + intros c g Hg. split; [constructor | exact Hg].
      + unfold globals_after_setup; cbn [interval].
        destruct (si_interval si) as [v|];
          [apply Hconf; reflexivity |].
        unfold interval_ok. change (INT_MAX / 1000) with 2147483. lia.
    - unfold cpg_main. rewrite bind_run, Hres. exact Hsetup. }
  intros wake sock timeout Hin.
  rewrite Forall_forall in Hall. exact (Hall _ Hin).
Qed.

Lemma waits_are_safe_witness :
  Forall (wait_ok 5)
    (trace_of (@cpg_main corosync_3 123 startup_interval_5
                 [busy_iteration; idle_iteration] globals0)).
Proof.
  apply Forall_forall. intros e He. destruct e; try exact I.
  refine (@waits_are_safe corosync_3 123 startup_interval_5
            [busy_iteration; idle_iteration] globals0 _ _ wake sock timeout
            He).
  - intros v Hv. injection Hv as <-. change (1 <= 5 <= 2147483). lia.
  - intros i v [<-|[<-|[]]] Hv; [|discriminate].
    injection Hv as <-. change (1 <= 5 <= 2147483). lia.
Defined.

Lemma to_int32_range (z : Z) : - 2 ^ 31 <= to_int32 z < 2 ^ 31.
Proof.
  unfold to_int32.
  pose proof (Z.mod_pos_bound (z + 2 ^ 31) (2 ^ 32) ltac:(lia)). lia.
Qed.

(** X11: the maximum declared for [cpg.interval] is exact: for an interval
    of at least one second, the product interval*1000 computed in [int] for
    the wait is the true product if and only if the interval is at most the
    declared maximum. *)
Theorem interval_maximum_is_exact (v : Z) :
  1 <= v ->
  (int_mul v 1000 = v * 1000 <-> v <= guc_max_value guc_interval).
Proof.
  intros Hv. change (guc_max_value guc_interval) with 2147483.
  split.
  - intros H. unfold int_mul in H.
    pose proof (to_int32_range (v * 1000)) as Hr. rewrite H in Hr. lia.
  - intros H. unfold int_mul. apply to_int32_small. lia.
Qed.

Lemma interval_maximum_is_exact_witness :
  int_mul 2147483 1000 = 2147483 * 1000
  /\ int_mul 2147484 1000 <> 2147484 * 1000.
Proof.
  split.
  - refine (proj2 (interval_maximum_is_exact 2147483 _) _).
    + lia.
    + change (2147483 <= 2147483). lia.
  - intros H.
    pose proof (proj1 (interval_maximum_is_exact 2147484 ltac:(lia)) H) as Hle.
    change (2147484 <= 2147483) in Hle. lia.
Defined.

(** ** Promotions along a run *)

Lemma utoa_head (fuel : nat) :
  forall (n : Z) (acc : string),
    exists d rest,
      0 <= d < 10 /\ utoa (S fuel) n acc = String (digit_char d) rest.
Proof.
  induction fuel as [|fuel IH]; intros n acc.
  - exists (n mod 10), acc.
    split; [apply Z.mod_pos_bound; lia|].
    cbn [utoa]. now destruct (n / 10 =? 0).
  - change (utoa (S (S fuel)) n acc)
      with (if n / 10 =? 0
            then String (digit_char (n mod 10)) acc
            else utoa (S fuel) (n / 10)
                   (String (digit_char (n mod 10)) acc)).
    destruct (n / 10 =? 0); [|apply IH].
    exists (n mod 10), acc.
    split; [apply Z.mod_pos_bound; lia | reflexivity].
Qed.

Lemma members_log_not_promotion (c : confchg) :
  is_promotion (members_log c) = false.
Proof.
  unfold members_log.
  destruct (cstring_at (sum_up_members (member_list c)) 2) as [s|];
    [|reflexivity].
  destruct (utoa_head 19 (Z.of_nat (List.length (joined_list c))) "")
    as [d [rest [Hd Hu]]].
  unfold fmt_u. rewrite Hu.
  assert (Hc : d = 0 \/ d = 1 \/ d = 2 \/ d = 3 \/ d = 4 \/ d = 5 \/ d = 6
               \/ d = 7 \/ d = 8 \/ d = 9) by lia.
  repeat destruct Hc as [->|Hc]; try subst d; reflexivity.
Qed.

Lemma promotions_app (t u : list event) :
  promotions (t ++ u) = (promotions t + promotions u)%nat.
Proof.
  unfold promotions. now rewrite filter_app, length_app.
Qed.

Lemma cs_config_cb_promotions (MyProcPid : Z) (c : confchg) (g : globals) :
  promotions (trace_of (cs_config_cb MyProcPid c g)) = 0%nat.
Proof.
  rewrite cs_config_cb_run. cbv zeta.
  pose proof (members_log_not_promotion c) as Hl.
  destruct (match left_list c with [] => false | _ => _ end);
    unfold trace_of, promotions; cbn [fst filter is_promotion];
    rewrite Hl; reflexivity.
Qed.

Lemma dispatch_step_promotions {cs : corosync_h} (MyProcPid : Z)
    (i : iter_input) (g : globals) :
  promotions (trace_of (dispatch_step MyProcPid i g)) = 0%nat
  /\ in_recovery (globals_of (dispatch_step MyProcPid i g)) = in_recovery g.
Proof.
  rewrite dispatch_step_run. cbv zeta.
  set (d := cpg_dispatch (model_data MyProcPid) CS_DISPATCH_ONE_NONBLOCKING
              (ii_pending i) (ii_dispatch_rc i) g).
  assert (Hd : promotions (trace_of d) = 0%nat
               /\ in_recovery (globals_of d) = in_recovery g).
  { subst d. rewrite cpg_dispatch_run.
    destruct (ii_pending i) as [[c| |]|]; try (split; reflexivity).
    unfold trace_of at 1, globals_of at 1; cbn [fst snd]. split.
    - apply (cs_config_cb_promotions MyProcPid c g).
    - apply (cs_config_cb_writes_members_only_aux MyProcPid c g). }
  destruct Hd as [Hp Hr].
  destruct (result_of d) as [rc|t];
    [destruct (rc =? CS_OK); [|destruct (rc =? CS_ERR_TRY_AGAIN)]|];
    unfold trace_of at 1, globals_of at 1; cbn [fst snd];
    rewrite ?promotions_app, ?Hp; split; auto.
Qed.

Lemma trace_of_prepend {A} (t : list event)
    (x : list event * globals * result A) :
  trace_of (prepend_trace t x) = (t ++ trace_of x)%list.
Proof. reflexivity. Qed.

Lemma globals_of_prepend {A} (t : list event)
    (x : list event * globals * result A) :
  globals_of (prepend_trace t x) = globals_of x.
Proof. reflexivity. Qed.

Lemma result_of_prepend {A} (t : list event)
    (x : list event * globals * result A) :
  result_of (prepend_trace t x) = result_of x.
Proof. reflexivity. Qed.

Lemma after_dispatch_promotions (cpg_fd : Z) (i : iter_input) (g : globals) :
  promotions (trace_of (after_dispatch cpg_fd i g))
  = (if Bool.eqb (ii_recovery i) (in_recovery g) then 0 else 1)%nat
  /\ in_recovery (globals_of (after_dispatch cpg_fd i g))
     = (if Bool.eqb (ii_recovery i) (in_recovery g)
        then in_recovery g else ii_recovery' i).
Proof.
  assert (Hrole :
            promotions (trace_of (role_step i g))
            = (if Bool.eqb (ii_recovery i) (in_recovery g) then 0 else 1)%nat
            /\ in_recovery (globals_of (role_step i g))
               = (if Bool.eqb (ii_recovery i) (in_recovery g)
                  then in_recovery g else ii_recovery' i)).
  { rewrite role_step_run.
    destruct (Bool.eqb (ii_recovery i) (in_recovery g)); split; reflexivity. }
  destruct Hrole as [Hp Hr].
  assert (Htail : forall g2,
            promotions (trace_of ((wait_step cpg_fd i ;; ret Next) g2))
            = 0%nat
            /\ in_recovery (globals_of ((wait_step cpg_fd i ;; ret Next) g2))
               = in_recovery g2).
  { intros g2. rewrite bind_run, wait_step_run. cbv zeta.
    destruct (ii_wait i) as [| |[|]], (ii_reload i); split; reflexivity. }
  unfold after_dispatch. rewrite bind_run, role_step_returns.
  rewrite trace_of_prepend, globals_of_prepend, promotions_app.
  destruct (Htail (globals_of (role_step i g))) as [Hp2 Hr2].
  rewrite Hp, Hp2, Hr2, Hr. split; [lia | reflexivity].
Qed.

Lemma loop_body_promotions {cs : corosync_h} (MyProcPid cpg_fd : Z)
    (i : iter_input) (g : globals) (c : control) :
  result_of (loop_body MyProcPid cpg_fd i g) = Ret c ->
  promotions (trace_of (loop_body MyProcPid cpg_fd i g))
  = (if Bool.eqb (ii_recovery i) (in_recovery g) then 0 else 1)%nat
  /\ in_recovery (globals_of (loop_body MyProcPid cpg_fd i g))
     = (if Bool.eqb (ii_recovery i) (in_recovery g)
        then in_recovery g else ii_recovery' i).
Proof.
  destruct (ii_interrupt i) eqn:Hi.
  { rewrite (loop_body_interrupted _ _ _ _ Hi). discriminate. }
  rewrite (loop_body_run _ _ _ _ Hi).
  destruct (dispatch_step_promotions MyProcPid i g) as [Hp Hr].
  destruct (result_of (dispatch_step MyProcPid i g)) as [[]|t];
    [|discriminate].
  intros _.
  destruct (after_dispatch_promotions cpg_fd i
              (globals_of (dispatch_step MyProcPid i g))) as [Hp2 Hr2].
  rewrite Hr in Hp2, Hr2.
  rewrite trace_of_prepend, globals_of_prepend.
  split; [|exact Hr2].
  change (promotions ((?e :: ?t) ++ ?u)) with (promotions (t ++ u)).
  now rewrite promotions_app, Hp, Hp2.
Qed.

Lemma last_cons_default {A} (l : list A) (x d : A) :
  last (x :: l) d = last l x.
Proof.
  revert x d. induction l as [|y l IH]; intros x d; [reflexivity|].
  change (last (x :: y :: l) d) with (last (y :: l) d).
  now rewrite !IH.
Qed.

(** X12: promotions are logged on edges only.  In a run of the loop that
    is still going after the given iterations, and in which the role
    predicate answers the same at both calls of an iteration, the number of
    "[cpg] I've been promoted!" lines is the number of times the sampled
    role differs from the one sampled before it (the stored role, for the
    first), and the stored role at the end is the last role sampled. *)
Theorem promotions_are_edges {cs : corosync_h} (MyProcPid cpg_fd : Z)
    (inputs : list iter_input) (g : globals) (c : control) :
  (forall i, In i inputs -> ii_recovery' i = ii_recovery i) ->
  result_of (for_ever (loop_body MyProcPid cpg_fd) inputs g) = Ret c ->
  promotions (trace_of (for_ever (loop_body MyProcPid cpg_fd) inputs g))
  = role_changes (in_recovery g) (map ii_recovery inputs)
  /\ in_recovery (globals_of (for_ever (loop_body MyProcPid cpg_fd) inputs g))
     = last (map ii_recovery inputs) (in_recovery g).
Proof.
  revert g. induction inputs as [|i rest IH]; intros g Hstable Hres.
  - split; reflexivity.
  - cbn [for_ever] in *. rewrite bind_run in *.
    destruct (result_of (loop_body MyProcPid cpg_fd i g)) as [c1|t] eqn:Hb;
      [|discriminate].
    pose proof (loop_body_returns_next MyProcPid cpg_fd i g c1 Hb) as Hn.
    cbv beta in Hn. subst c1. cbv beta iota in Hres |- *.
    destruct (loop_body_promotions MyProcPid cpg_fd i g Next Hb) as [Hp Hr].
    rewrite (Hstable i (or_introl eq_refl)) in Hr.
    assert (Hr' : in_recovery (globals_of (loop_body MyProcPid cpg_fd i g))
                  = ii_recovery i).
    { rewrite Hr.
      destruct (ii_recovery i), (in_recovery g); reflexivity. }
    rewrite result_of_prepend in Hres.
    destruct (IH (globals_of (loop_body MyProcPid cpg_fd i g))
                (fun j Hj => Hstable j (or_intror Hj)) Hres) as [IHp IHr].
    rewrite trace_of_prepend, globals_of_prepend.
    rewrite promotions_app, Hp, IHp, IHr, Hr'.
    cbn [map role_changes]. split; [reflexivity|].
    symmetry. apply last_cons_default.
Qed.

Lemma promotions_are_edges_witness :
  promotions
    (trace_of (for_ever (@loop_body corosync_3 123 5)
                 [busy_iteration; idle_iteration; idle_iteration] standby7))
  = 2%nat.
Proof.
  refine (proj1 (@promotions_are_edges corosync_3 123 5
                   [busy_iteration; idle_iteration; idle_iteration]
                   standby7 Next _ _)).
  - intros i [<-|[<-|[<-|[]]]]; reflexivity.
  - vm_compute. reflexivity.
Defined.

(** ** One dispatch, one wait *)

Lemma waits_app (t u : list event) :
  waits (t ++ u) = (waits t ++ waits u)%list.
Proof. apply filter_app. Qed.

Lemma no_waits {A} (m : M A) (g : globals) :
  emits not_wait m -> waits (trace_of (m g)) = [].
Proof.
  intros H. specialize (H g). unfold waits.
  induction H as [|e t He _ IH]; simpl; [reflexivity|].
  unfold not_wait in He. now rewrite He.
Qed.

Lemma trace_of_triple {A} (t : list event) (g : globals) (r : result A) :
  trace_of (t, g, r) = t.
Proof. reflexivity. Qed.

Lemma result_of_triple {A} (t : list event) (g : globals) (r : result A) :
  result_of (t, g, r) = r.
Proof. reflexivity. Qed.

Lemma after_dispatch_waits (cpg_fd : Z) (i : iter_input) (g : globals) :
  List.length (waits (trace_of (after_dispatch cpg_fd i g))) = 1%nat.
Proof.
  assert (Htail : forall g2,
            List.length
              (waits (trace_of ((wait_step cpg_fd i ;; ret Next) g2)))
            = 1%nat).
  { intros g2. rewrite bind_run, wait_step_run. cbv zeta.
    destruct (ii_wait i) as [| |[|]]; reflexivity. }
  unfold after_dispatch. rewrite bind_run, role_step_returns.
  rewrite trace_of_prepend, waits_app.
  rewrite (no_waits (role_step i) g (role_step_no_wait i)).
  apply Htail.
Qed.

Lemma loop_body_counts {cs : corosync_h} (MyProcPid cpg_fd : Z)
    (i : iter_input) (g : globals) :
  let t := trace_of (loop_body MyProcPid cpg_fd i g) in
  (List.length (waits t) <= List.length (dispatch_attempts t) <= 1)%nat
  /\ (forall c, result_of (loop_body MyProcPid cpg_fd i g) = Ret c ->
      List.length (waits t) = 1%nat
      /\ List.length (dispatch_attempts t) = 1%nat).
Proof.
  cbv zeta. destruct (ii_interrupt i) eqn:Hi.
  { rewrite (loop_body_interrupted _ _ _ _ Hi).
    split; [cbn; lia | discriminate]. }
  rewrite (loop_body_attempts _ _ _ _ Hi).
  rewrite (loop_body_run _ _ _ _ Hi).
  pose proof (no_waits (dispatch_step MyProcPid i) g
                (dispatch_step_no_wait MyProcPid i)) as Hd.
  destruct (result_of (dispatch_step MyProcPid i g)) as [[]|t].
  - rewrite trace_of_prepend, result_of_prepend.
    change (waits ((?e :: ?t) ++ ?u)) with (waits (t ++ u)).
    rewrite waits_app, Hd. cbn [app]. rewrite after_dispatch_waits.
    cbn. split; [lia | auto].
  - unfold trace_of at 1, result_of at 1; cbn [fst snd].
    change (waits (?e :: ?t)) with (waits t). rewrite Hd.
    split; [cbn; lia | discriminate].
Qed.

(** X13: the loop drains at most one event per wait.  In any run of the
    loop the calls of [cpg_dispatch] number at most the iterations started
    and at most one more than the waits, and the waits number at most the
    dispatches; a run that is still going after the given iterations has
    made exactly one dispatch and one wait in each. *)
Theorem one_dispatch_per_wait {cs : corosync_h} (MyProcPid cpg_fd : Z)
    (inputs : list iter_input) (g : globals) :
  let out := for_ever (loop_body MyProcPid cpg_fd) inputs g in
  let d := List.length (dispatch_attempts (trace_of out)) in
  let w := List.length (waits (trace_of out)) in
  (w <= d <= List.length inputs)%nat
  /\ (d <= w + 1)%nat
  /\ (forall c, result_of out = Ret c ->
      w = List.length inputs /\ d = List.length inputs).
Proof.
  cbv zeta. revert g. induction inputs as [|i rest IH]; intros g.
  - cbn. repeat split; lia.
  - cbn [for_ever]. rewrite bind_run.
    destruct (loop_body_counts MyProcPid cpg_fd i g) as [Hle Hret].
    cbv zeta in Hle, Hret.
    destruct (result_of (loop_body MyProcPid cpg_fd i g)) as [c1|t] eqn:Hb.
    + pose proof (loop_body_returns_next MyProcPid cpg_fd i g c1 Hb) as Hn.
      cbv beta in Hn. subst c1. cbv beta iota.
      destruct (Hret Next eq_refl) as [Hw Hd].
      rewrite trace_of_prepend, result_of_prepend.
      unfold dispatch_attempts in *. rewrite waits_app, filter_app.
      rewrite !length_app, Hw, Hd.
      destruct (IH (globals_of (loop_body MyProcPid cpg_fd i g)))
        as [IH1 [IH2 IH3]].
      cbn [List.length].
      split; [lia | split; [lia|]].
      intros c Hc. destruct (IH3 c Hc). lia.
    + rewrite !trace_of_triple, result_of_triple.
      unfold dispatch_attempts in *. cbn [List.length].
      split; [lia | split; [lia | discriminate]].
Qed.

(** ** Module load *)

(** X14: [_PG_init] registers nothing unless the library is loaded through
    shared_preload_libraries, and then registers one worker.  With name
    fields of at least nine bytes its library is "cpg" and its entry point
    "cpg_main", uncut; it asks for shared memory only, starts once a
    consistent state is reached and is never restarted.  Whatever the size
    of the name fields, the names stored fit them. *)
Theorem PG_init_registers {bgw : bgworker_h}
    (process_shared_preload_libraries_in_progress : bool) :
  ((9 <= BGW_MAXLEN)%nat ->
   _PG_init process_shared_preload_libraries_in_progress
   = if process_shared_preload_libraries_in_progress
     then [ {| bgw_name := "cpg";
               bgw_type := "";
               bgw_flags := [BGWORKER_SHMEM_ACCESS];
               bgw_start_time := BgWorkerStart_ConsistentState;
               bgw_restart_time := BGW_NEVER_RESTART;
               bgw_library_name := "cpg";
               bgw_function_name := "cpg_main";
               bgw_main_arg := 0;
               bgw_extra := "";
               bgw_notify_pid := 0 |} ]
     else [])
  /\ (forall w,
        In w (_PG_init process_shared_preload_libraries_in_progress) ->
        (String.length (bgw_name w) <= BGW_MAXLEN - 1)%nat
        /\ (String.length (bgw_library_name w) <= BGW_MAXLEN - 1)%nat
        /\ (String.length (bgw_function_name w) <= BGW_MAXLEN - 1)%nat).
Proof.
  split.
  - intros Hlen. unfold _PG_init.
    destruct process_shared_preload_libraries_in_progress; [|reflexivity].
    cbn [negb]. unfold snprintf.
    rewrite !substring_0_fits by (simpl; lia). reflexivity.
  - unfold _PG_init.
    destruct process_shared_preload_libraries_in_progress; [|intros w []].
    cbn [negb]. intros w [<-|[]].
    cbn [bgw_name bgw_library_name bgw_function_name]. unfold snprintf.
    repeat split; apply substring_0_length.
Qed.

Lemma PG_init_registers_witness :
  map bgw_function_name (@_PG_init postgres_bgworker true) = ["cpg_main"]
  /\ @_PG_init postgres_bgworker false = [].
Proof.
  split.
  - rewrite (proj1 (@PG_init_registers postgres_bgworker true)).
    + reflexivity.
    + simpl; lia.
  - refine (proj1 (@PG_init_registers postgres_bgworker false) _).
    simpl; lia.
Defined.

(** ** The member count along a run *)

Lemma dispatch_step_members {cs : corosync_h} (MyProcPid : Z)
    (i : iter_input) (g : globals) (c : confchg) :
  ii_pending i = Some (EvConfchg c) ->
  members (globals_of (dispatch_step MyProcPid i g))
  = to_uint32 (Z.of_nat (List.length (member_list c))).
Proof.
  intros Hp. rewrite dispatch_step_run. cbv zeta.
  set (d := cpg_dispatch (model_data MyProcPid) CS_DISPATCH_ONE_NONBLOCKING
              (ii_pending i) (ii_dispatch_rc i) g).
  assert (Hd : members (globals_of d)
               = to_uint32 (Z.of_nat (List.length (member_list c)))).
  { subst d. rewrite cpg_dispatch_run, Hp.
    unfold globals_of at 1; cbn [fst snd].
    rewrite cs_config_cb_run. cbv zeta.
    destruct (match left_list c with [] => false | _ => _ end); reflexivity. }
  destruct (result_of d) as [rc|t];
    [destruct (rc =? CS_OK); [|destruct (rc =? CS_ERR_TRY_AGAIN)]|];
    exact Hd.
Qed.

Lemma after_dispatch_keeps_members (cpg_fd : Z) (i : iter_input) :
  keeps members (after_dispatch cpg_fd i).
Proof.
  unfold after_dispatch.
  apply keeps_bind; [apply role_step_keeps_members | intros].
  apply keeps_bind; [apply wait_step_keeps_members | intros].
  apply keeps_ret.
Qed.

Lemma loop_body_members {cs : corosync_h} (MyProcPid cpg_fd : Z)
    (i : iter_input) (g : globals) (c : control) :
  result_of (loop_body MyProcPid cpg_fd i g) = Ret c ->
  members (globals_of (loop_body MyProcPid cpg_fd i g))
  = match ii_pending i with
    | Some (EvConfchg v) => to_uint32 (Z.of_nat (List.length (member_list v)))
    | _ => members g
    end.
Proof.
  intros Hres.
  destruct (ii_pending i) as [[v| |]|] eqn:Hp;
    try (apply loop_body_keeps_members; intros v'; rewrite Hp; discriminate).
  destruct (ii_interrupt i) eqn:Hi.
  { rewrite (loop_body_interrupted _ _ _ _ Hi) in Hres. discriminate. }
  rewrite (loop_body_run _ _ _ _ Hi) in Hres |- *.
  destruct (result_of (dispatch_step MyProcPid i g)) as [[]|t];
    [|discriminate].
  rewrite globals_of_prepend, after_dispatch_keeps_members.
  now apply dispatch_step_members.
Qed.

(** X15: along a run of the loop that is still going after the given
    iterations, [members] is the size (as stored in a [uint32_t]) of the
    view of the last membership callback delivered, and the count the run
    started with when none was delivered. *)
Theorem members_follows_last_view {cs : corosync_h} (MyProcPid cpg_fd : Z)
    (inputs : list iter_input) (g : globals) (c : control) :
  result_of (for_ever (loop_body MyProcPid cpg_fd) inputs g) = Ret c ->
  members (globals_of (for_ever (loop_body MyProcPid cpg_fd) inputs g))
  = last_view_size (members g) inputs.
Proof.
  revert g. induction inputs as [|i rest IH]; intros g Hres.
  - reflexivity.
  - cbn [for_ever] in *. rewrite bind_run in *.
    destruct (result_of (loop_body MyProcPid cpg_fd i g)) as [c1|t] eqn:Hb;
      [|discriminate].
    pose proof (loop_body_returns_next MyProcPid cpg_fd i g c1 Hb) as Hn.
    cbv beta in Hn. subst c1. cbv beta iota in Hres |- *.
    rewrite result_of_prepend in Hres. rewrite globals_of_prepend.
    rewrite (IH _ Hres), (loop_body_members _ _ _ _ _ Hb).
    reflexivity.
Qed.

Lemma members_follows_last_view_witness :
  members
    (globals_of (for_ever (@loop_body corosync_3 123 5)
                   [busy_iteration; idle_iteration] standby7)) = 2.
Proof.
  refine (@members_follows_last_view corosync_3 123 5
            [busy_iteration; idle_iteration] standby7 Next _).
  vm_compute. reflexivity.
Defined.

(** ** The node ids in the log *)

(** C10: the code at a view whose first member has a node id above 2^31.
    The offset of two bytes lies within the written bytes and the line
    lists the two members, but the node id 3232235786 appears as
    -1062731510: the two [uint32_t] fields are printed with [%d], where the
    member count of the title is printed with [%u].  The decimal of the node
    id occurs nowhere in the line. *)
Theorem member_list_log_high_nodeid :
  nodeid node_high = 3232235786
  /\ cstring_at (sum_up_members (member_list high_joins)) 2
     = Some "-1062731510/456, 7/123"
  /\ In (Elog LOG
           "[cpg] 1 join, 0 left, procs in group now: -1062731510/456, 7/123")
        (trace_of (cs_config_cb 123 high_joins standby7))
  /\ index 0 (fmt_u (nodeid node_high))
       "[cpg] 1 join, 0 left, procs in group now: -1062731510/456, 7/123"
     = None.
Proof.
  split; [reflexivity|]. split; [vm_compute; reflexivity|].
  split; [|vm_compute; reflexivity].
  vm_compute. right. left. reflexivity.
Qed.

(** ** How an iteration ends, SIGTERM arriving at any point *)

Lemma loop_body_exit_trace {cs : corosync_h} (MyProcPid cpg_fd : Z)
    (i : iter_input) (g : globals) (status : Z) :
  result_of (loop_body MyProcPid cpg_fd i g) = Stop (Exit status) ->
  exists before,
    trace_of (loop_body MyProcPid cpg_fd i g)
    = (before ++ [Elog LOG "[cpg] …and leaving"])%list.
Proof.
  intros Hres.
  destruct (loop_body_stops MyProcPid cpg_fd i g (Exit status) Hres)
    as [_ Hw].
  destruct (ii_interrupt i) eqn:Hi.
  { rewrite (loop_body_interrupted _ _ _ _ Hi) in Hres. discriminate. }
  rewrite (loop_body_run _ _ _ _ Hi) in Hres |- *.
  destruct (result_of (dispatch_step MyProcPid i g)) as [[]|t] eqn:Hd.
  2:{ destruct (dispatch_step_result _ _ _ _ Hd) as [-> _].
      rewrite result_of_triple in Hres. discriminate. }
  rewrite trace_of_prepend. unfold after_dispatch.
  rewrite bind_run, role_step_returns, trace_of_prepend.
  rewrite bind_run, wait_step_run. cbv zeta. rewrite Hw.
  rewrite result_of_triple. cbv beta iota. rewrite !trace_of_triple.
  eexists. rewrite !app_assoc. reflexivity.
Qed.

(** X5: an iteration of the loop, SIGTERM arriving at any point of it or
    not at all, ends the process in three ways only.  It exits with a status
    only through the SIGTERM handler: the status is 0 and the last call is
    the handler's log "[cpg] …and leaving".  It ends inside the host only
    uncut, at the interrupt check or on the death of the postmaster during
    the wait.  It ends at FATAL only uncut, in its dispatch, when the
    membership callback ends the process or when the code returned is
    neither CS_OK nor CS_ERR_TRY_AGAIN. *)
Theorem iteration_ends {cs : corosync_h} (MyProcPid cpg_fd : Z)
    (i : iter_input) (g : globals) (tr : list event) (t : termination) :
  ends (loop_body MyProcPid cpg_fd i) g tr t ->
  match t with
  | Exit status =>
      status = 0
      /\ exists before,
           tr = (before ++ [Elog LOG "[cpg] …and leaving"])%list
  | HostExit =>
      tr = trace_of (loop_body MyProcPid cpg_fd i g)
      /\ (ii_interrupt i = true \/ ii_wait i = PostmasterDied)
  | FatalExit =>
      tr = trace_of (loop_body MyProcPid cpg_fd i g)
      /\ ii_interrupt i = false
      /\ ((exists c, ii_pending i = Some (EvConfchg c)
                     /\ result_of (cs_config_cb MyProcPid c g)
                        = Stop FatalExit)
          \/ (ii_dispatch_rc i <> CS_OK
              /\ ii_dispatch_rc i <> CS_ERR_TRY_AGAIN))
  end.
Proof.
  intros Hends.
  destruct Hends as [t Hres | k g' t Hk Hh].
  - pose proof (loop_body_stops MyProcPid cpg_fd i g t Hres) as Hs.
    destruct t as [status| |].
    + split; [apply Hs | exact (loop_body_exit_trace _ _ _ _ _ Hres)].
    + destruct Hs as [Hi Hc]. auto.
    + auto.
  - change (@Stop unit (Exit 0) = Stop t) in Hh. injection Hh as <-.
    split; [reflexivity|].
    exists (firstn k (trace_of (loop_body MyProcPid cpg_fd i g))).
    reflexivity.
Qed.

Lemma iteration_ends_witness :
  0 = 0
  /\ exists before,
       (firstn 2 (trace_of (@loop_body corosync_3 123 5 busy_iteration
                              standby7))
          ++ trace_of (installed_handler SIGTERM standby7))%list
       = (before ++ [Elog LOG "[cpg] …and leaving"])%list.
Proof.
  refine (@iteration_ends corosync_3 123 5 busy_iteration standby7 _
            (Exit 0) _).
  apply (ends_by_sigterm (@loop_body corosync_3 123 5 busy_iteration)
           standby7 2 standby7 (Exit 0)).
  - vm_compute. repeat constructor.
  - reflexivity.
Defined.
